(** * meilisearch-python-async: the client, document batching and task polling

    A shallow embedding of [meilisearch_python_async/client.py] together with
    the parts of the package the client calls into ([_http_requests.py],
    [task.py], [index.py]).  The server is an arbitrary transition system
    answering HTTP requests; every coroutine of the package becomes a function
    from the state of the world to a new state and an outcome. *)

From Stdlib Require Import List String Ascii ZArith Bool Arith Lia.
Import ListNotations.
Open Scope string_scope.
Set Warnings "-register-all".

(** ** Python values *)

(** What [response.json()] hands back, and what documents and payloads are
    made of.  A [JObj] lists the items of a dict, whose keys are distinct. *)
Inductive json : Type :=
| JNull
| JBool (b : bool)
| JNum (n : Z)
| JStr (s : string)
| JArr (items : list json)
| JObj (fields : list (string * json)).

(** Python's truth value of such an object, as tested by [if x] and [not x]. *)
Definition truthy (j : json) : bool :=
  match j with
  | JNull => false
  | JBool b => b
  | JNum n => negb (n =? 0)%Z
  | JStr s => negb (String.eqb s "")
  | JArr items => match items with [] => false | _ => true end
  | JObj fields => match fields with [] => false | _ => true end
  end.

(** The exceptions the package raises or lets through. *)
Inductive error : Type :=
| MeiliSearchApiError (status : Z)
| MeiliSearchTimeoutError
| MeiliSearchError
| PayloadTooLarge
| InvalidKeyError
| InvalidRestriction
| KeyNotFoundError
| ValueError
| KeyError (key : string)
| TypeError
| ValidationError.

(** A call returns, raises, or is still running when the fuel of a loop
    is spent. *)
Inductive outcome (A : Type) : Type :=
| Ok (a : A)
| Raise (e : error)
| OutOfFuel.
Arguments Ok {A} a.
Arguments Raise {A} e.
Arguments OutOfFuel {A}.

Definition is_ok {A} (r : outcome A) : bool :=
  match r with Ok _ => true | _ => false end.

(** A pure computation that may raise. *)
Definition bind_outcome {A B} (r : outcome A) (k : A -> outcome B) : outcome B :=
  match r with
  | Ok a => k a
  | Raise e => Raise e
  | OutOfFuel => OutOfFuel
  end.

(** [[f(x) for x in xs]]: the first exception ends the comprehension. *)
Fixpoint comprehension {A B} (f : A -> outcome B) (xs : list A) : outcome (list B) :=
  match xs with
  | [] => Ok []
  | x :: rest =>
      bind_outcome (f x) (fun y =>
      bind_outcome (comprehension f rest) (fun ys => Ok (y :: ys)))
  end.

(** [d.get(key)] on the items of a dict. *)
Fixpoint dict_get (key : string) (fields : list (string * json)) : option json :=
  match fields with
  | [] => None
  | (k, v) :: rest => if String.eqb k key then Some v else dict_get key rest
  end.

(** [x[key]] with a string key: only a dict can be subscripted that way. *)
Definition subscript (x : json) (key : string) : outcome json :=
  match x with
  | JObj fields =>
      match dict_get key fields with
      | Some v => Ok v
      | None => Raise (KeyError key)
      end
  | _ => Raise TypeError
  end.

Fixpoint chars (s : string) : list json :=
  match s with
  | EmptyString => []
  | String a rest => JStr (String a EmptyString) :: chars rest
  end.

(** [for x in j]: lists give their items, dicts their keys, strings their
    characters; nothing else can be iterated. *)
Definition py_iter (j : json) : outcome (list json) :=
  match j with
  | JArr items => Ok items
  | JObj fields => Ok (map (fun kv => JStr (fst kv)) fields)
  | JStr s => Ok (chars s)
  | _ => Raise TypeError
  end.

(** [x in xs] for a list of strings [xs]. *)
Definition json_in (x : json) (xs : list string) : bool :=
  match x with
  | JStr s => existsb (String.eqb s) xs
  | _ => false
  end.

(** [needle in haystack] on strings. *)
Fixpoint contains (needle haystack : string) : bool :=
  if String.prefix needle haystack then true
  else match haystack with
       | EmptyString => false
       | String _ rest => contains needle rest
       end.

(** [xs == ys] on lists of strings. *)
Fixpoint list_string_eqb (xs ys : list string) : bool :=
  match xs, ys with
  | [], [] => true
  | x :: xs', y :: ys' => String.eqb x y && list_string_eqb xs' ys'
  | _, _ => false
  end.

(** ** HTTP *)

Inductive http_method : Type := GET | POST | PUT | PATCH | DELETE.

Inductive content : Type :=
| NoContent
| JsonContent (body : json)
| RawContent (bytes : string).

(** [httpx.AsyncClient(base_url=url, timeout=timeout, headers=headers)]. *)
Record AsyncClient : Type := mkAsyncClient {
  base_url : string;
  client_timeout : option Z;
  headers : option (list (string * string))
}.

(** A request as the transport sends it: the path is relative to the base
    url of the client, whose headers go with every request. *)
Record Request : Type := mkRequest {
  req_method : http_method;
  req_base : string;
  req_path : string;
  req_headers : option (list (string * string));
  req_content : content
}.

Record Response : Type := mkResponse {
  status_code : Z;
  response_json : json
}.

Definition header (name : string) (hs : option (list (string * string))) : option string :=
  match hs with
  | None => None
  | Some l =>
     match find (fun kv => String.eqb (fst kv) name) l with
     | Some kv => Some (snd kv)
     | None => None
     end
  end.

(** ** Client.__init__ *)

Record Client : Type := mkClient {
  http_client : AsyncClient
}.

Definition Client_init (url : string) (api_key : option string) (timeout : option Z) : Client :=
  let headers :=
    match api_key with
    | Some k => if negb (String.eqb k "") then Some [("Authorization", "Bearer " ++ k)] else None
    | None => None
    end in
  mkClient (mkAsyncClient url timeout headers).

(** ** The world: a server, a clock and the trace of what was sent *)

Inductive event : Type :=
| Issued (t : Z) (r : Request)
| Completed (t : Z) (r : Request) (resp : Response).

Definition is_success (code : Z) : bool := ((200 <=? code) && (code <? 300))%Z.

Definition terminal_statuses : list string := ["succeeded"; "failed"].

Definition is_terminal (s : string) : bool := existsb (String.eqb s) terminal_statuses.

(** The statuses at which [wait_for_pending_update] stops: the tests under
    [tests/integration] wait for "processed" and report "failed". *)
Definition update_terminal_statuses : list string := ["processed"; "failed"].

(** The task resource, as far as the package looks at it. *)
Record TaskStatus : Type := mkTaskStatus {
  task_uid : json;
  status : string
}.

(** An API key ([models/client.py]). *)
Record Key : Type := mkKey {
  description : string;
  key : string;
  actions : list string;
  indexes : list string
}.

Section Meili.
Set Default Proof Using "Type".

(** The MeiliSearch server: any state machine answering requests.  A request
    takes [rtt] milliseconds of the clock. *)
Variable Server : Type.
Variable serve : Server -> Request -> Server * Response.
Variable rtt : Server -> Request -> Z.

(** How an f-string prints a value, and how the pydantic models and the
    [Index] class are built from what the server sent. *)
Variable py_format : json -> string.
Variable TaskStatus_of : json -> TaskStatus.
Variable IndexInfo Index : Type.
Variable IndexInfo_init : json -> outcome IndexInfo.
Variable Index_init : AsyncClient -> json -> json -> json -> json -> outcome Index.
Variable Key_init : json -> outcome Key.
(** [jwt.encode(payload, key, algorithm="HS256")]. *)
Variable jwt_encode : list (string * json) -> string -> string.
(** The defaults of [wait_for_task]. *)
Variable default_timeout_in_ms default_interval_in_ms : Z.
(** An [Index] holds the client it was made with and its uid. *)
Variable index_client : Index -> AsyncClient.
Variable index_uid : Index -> string.
Variable TaskInfo : Type.
Variable TaskInfo_of : json -> TaskInfo.
(** The size in bytes of a document once serialized. *)
Variable doc_size : json -> nat.
(** The file system: whether a path exists, the documents a json, csv or
    ndjson file holds, and the bytes of a file. *)
Variable file_exists : string -> bool.
Variable load_file : string -> outcome (list json).
Variable read_bytes : string -> string.

Record World : Type := mkWorld {
  server : Server;
  now : Z;
  trace : list event
}.

(** A coroutine, awaited: it changes the world and returns or raises. *)
Definition M (A : Type) : Type := World -> World * outcome A.

Definition ret {A} (a : A) : M A := fun w => (w, Ok a).
Definition raise {A} (e : error) : M A := fun w => (w, Raise e).
Definition lift {A} (r : outcome A) : M A := fun w => (w, r).
Definition bind {A B} (m : M A) (k : A -> M B) : M B :=
  fun w =>
    let (w1, r) := m w in
    match r with
    | Ok a => k a w1
    | Raise e => (w1, Raise e)
    | OutOfFuel => (w1, OutOfFuel)
    end.

Notation "x <- m ;; k" := (bind m (fun x => k))
  (at level 100, m at next level, right associativity).

(** [await http_client.request(...)]: the request is issued, the server
    answers, and only then does the caller go on. *)
Definition send (c : AsyncClient) (m : http_method) (path : string) (body : content)
  : World -> World * Response :=
  fun w =>
    let r := mkRequest m (base_url c) path (headers c) body in
    let (s', resp) := serve (server w) r in
    let t1 := (now w + rtt (server w) r)%Z in
    (mkWorld s' t1 (trace w ++ [Issued (now w) r; Completed t1 r resp])%list, resp).

(** [await asyncio.sleep(ms / 1000)]. *)
Definition sleep (ms : Z) (w : World) : World :=
  mkWorld (server w) (now w + ms)%Z (trace w).

(** Modelled from the spec: [_http_requests.py] is missing.  "A request
    sender that attaches auth headers and maps non-2xx responses to a typed
    error." *)
Definition _send_request (c : AsyncClient) (m : http_method) (path : string)
  (body : content) : M Response :=
  fun w =>
    let (w1, resp) := send c m path body w in
    if is_success (status_code resp) then (w1, Ok resp)
    else (w1, Raise (MeiliSearchApiError (status_code resp))).

(** Modelled from the spec: [task.py] is missing.  "Given a task identifier
    and a polling interval, repeatedly fetch task status until it is one of
    a fixed set of terminal values or an overall timeout elapses, at which
    point report a timeout failure."  [terminal] is that fixed set and
    [start] the clock when polling began; a poll is issued only while less
    than [timeout] has elapsed.  Each fetch goes through the request sender,
    so an answer outside 2xx ends the polling with its typed error ("surfaced
    directly to the caller with no retry"). *)
Fixpoint poll_task (terminal : list string) (fuel : nat) (c : AsyncClient) (url : string)
  (start timeout interval : Z) (w : World) : World * outcome TaskStatus :=
  match fuel with
  | O => (w, OutOfFuel)
  | S fuel' =>
      if (now w - start <? timeout)%Z then
        let (w1, r) := _send_request c GET url NoContent w in
        match r with
        | Ok response =>
            let st := TaskStatus_of (response_json response) in
            if existsb (String.eqb (status st)) terminal then (w1, Ok st)
            else poll_task terminal fuel' c url start timeout interval (sleep interval w1)
        | Raise e => (w1, Raise e)
        | OutOfFuel => (w1, OutOfFuel)
        end
      else (w, Raise MeiliSearchTimeoutError)
  end.

(** Modelled from the spec: [task.py] is missing.  The task is fetched at
    [tasks/<task_id>] until it has "succeeded" or "failed", and the timeout
    runs from the call. *)
Definition wait_for_task (fuel : nat) (c : AsyncClient) (task_id : json)
  (timeout_in_ms interval_in_ms : Z) : M TaskStatus :=
  fun w =>
    poll_task terminal_statuses fuel c ("tasks/" ++ py_format task_id) (now w)
              timeout_in_ms interval_in_ms w.

(** Where an index fetches the status of one of its updates. *)
Variable update_url : Index -> json -> string.

(** Modelled from the spec: [index.py] is missing.  The same polling, by an
    index for one of its updates, until the update is "processed" or
    "failed". *)
Definition wait_for_pending_update (fuel : nat) (self : Index) (update_id : json)
  (timeout_in_ms interval_in_ms : Z) : M TaskStatus :=
  fun w =>
    poll_task update_terminal_statuses fuel (index_client self)
              (update_url self update_id) (now w) timeout_in_ms interval_in_ms w.

(** One poll as it shows in the trace: issued at [t0], answered at [t1]. *)
Record poll : Type := mkPoll { t0 : Z; t1 : Z; answer : Response }.

Definition poll_request (c : AsyncClient) (url : string) : Request :=
  mkRequest GET (base_url c) url (headers c) NoContent.

Definition poll_events (c : AsyncClient) (url : string) (p : poll) : list event :=
  [Issued (t0 p) (poll_request c url); Completed (t1 p) (poll_request c url) (answer p)].

Definition observed (p : poll) : TaskStatus := TaskStatus_of (response_json (answer p)).

(** A poll the server accepted and whose status is not terminal yet. *)
Definition pending (terminal : list string) (p : poll) : Prop :=
  is_success (status_code (answer p)) = true /\
  existsb (String.eqb (status (observed p))) terminal = false.


(** ** client.py *)

Definition http_get (c : AsyncClient) (path : string) : M Response :=
  _send_request c GET path NoContent.

Definition http_delete (c : AsyncClient) (path : string) : M Response :=
  _send_request c DELETE path NoContent.

Definition delete_index_if_exists (fuel : nat) (self : Client) (uid : string) : M bool :=
  let url := "indexes/" ++ uid in
  response <- http_delete (http_client self) url ;;
  task_id <- lift (subscript (response_json response) "uid") ;;
  st <- wait_for_task fuel (http_client self) task_id
                      default_timeout_in_ms default_interval_in_ms ;;
  if String.eqb (status st) "succeeded" then ret true else ret false.

Definition get_keys (self : Client) : M (list Key) :=
  response <- http_get (http_client self) "keys" ;;
  results <- lift (subscript (response_json response) "results") ;;
  items <- lift (py_iter results) ;;
  lift (comprehension Key_init items).

(** The loop over [payload["indexes"]], entered when [payload.get("indexes")]
    is true. *)
Definition check_restriction (payload : list (string * json)) (jwt_key : Key) : outcome unit :=
  match dict_get "indexes" payload with
  | Some j =>
      if truthy j then
        bind_outcome (py_iter j) (fun items =>
          if forallb (fun index => json_in index (indexes jwt_key)) items
          then Ok tt
          else Raise InvalidRestriction)
      else Ok tt
  | None => Ok tt
  end.

(** The first branch of [generate_tenant_token]: which key signs. *)
Definition find_jwt_key (self : Client) (given_key : option Key) : M (option Key) :=
  match given_key with
  | None =>
      keys <- get_keys self ;;
      ret (find (fun k => contains "Default Search API Key" (description k)) keys)
  | Some k =>
      if negb (list_string_eqb (actions k) ["search"])
      then raise InvalidKeyError
      else ret (Some k)
  end.

Definition generate_tenant_token (self : Client) (payload : list (string * json))
  (given_key : option Key) : M string :=
  jwt_key <- find_jwt_key self given_key ;;
  match jwt_key with
  | None => raise KeyNotFoundError
  | Some jk =>
      _ <- lift (check_restriction payload jk) ;;
      ret (jwt_encode payload (key jk))
  end.

Definition index_of_item (c : AsyncClient) (x : json) : outcome Index :=
  bind_outcome (subscript x "uid") (fun uid =>
  bind_outcome (subscript x "primaryKey") (fun primary_key =>
  bind_outcome (subscript x "createdAt") (fun created_at =>
  bind_outcome (subscript x "updatedAt") (fun updated_at =>
  Index_init c uid primary_key created_at updated_at)))).

Definition get_indexes (self : Client) : M (option (list Index)) :=
  response <- http_get (http_client self) "indexes" ;;
  if negb (truthy (response_json response)) then ret None
  else
    items <- lift (py_iter (response_json response)) ;;
    l <- lift (comprehension (index_of_item (http_client self)) items) ;;
    ret (Some l).

Definition get_raw_index (self : Client) (uid : string) : M (option IndexInfo) :=
  fun w =>
    let (w1, response) := send (http_client self) GET ("indexes/" ++ uid) NoContent w in
    if (status_code response =? 404)%Z then (w1, Ok None)
    else (info <- lift (IndexInfo_init (response_json response)) ;; ret (Some info)) w1.

Definition get_raw_indexes (self : Client) : M (option (list IndexInfo)) :=
  response <- http_get (http_client self) "indexes" ;;
  if negb (truthy (response_json response)) then ret None
  else
    items <- lift (py_iter (response_json response)) ;;
    l <- lift (comprehension IndexInfo_init items) ;;
    ret (Some l).

(** ** index.py: batching *)

(** Modelled from the spec: [index.py] is missing.  "Compute chunk boundaries
    (fixed batch size ...)": the boundaries are [0, batch_size, 2 * batch_size,
    ...] below the number of documents, and a chunk is the slice from one
    boundary up to the next.  [None] when the fuel is spent before the
    boundaries reach [stop]. *)
Fixpoint boundaries (fuel start stop step : nat) : option (list nat) :=
  if (start <? stop)%nat then
    match fuel with
    | O => None
    | S fuel' => option_map (cons start) (boundaries fuel' (start + step) stop step)
    end
  else Some [].

Definition slice {A} (l : list A) (i j : nat) : list A := firstn (j - i) (skipn i l).

(** The spec describes a batch size that is positive; with 0 the boundaries
    never advance, and the outcome says so. *)
Definition _batch (documents : list json) (batch_size : nat) : outcome (list (list json)) :=
  match boundaries (List.length documents) 0 (List.length documents) batch_size with
  | Some starts => Ok (map (fun i => slice documents i (i + batch_size)) starts)
  | None => OutOfFuel
  end.

Definition ceil_div (n d : nat) : nat := (n + d - 1) / d.

(** The bytes of a chunk as it is sent, the JSON array of its documents: the
    two brackets, the documents, and ", " between one document and the
    next. *)
Definition serialized_size (chunk : list json) : nat :=
  2 + list_sum (map doc_size chunk) + 2 * (List.length chunk - 1).

(** Modelled from the spec: [index.py] is missing.  "Greedily accumulate items
    until a serialized-size threshold is exceeded and raise an error if a
    single item already exceeds it."  [batch] is the chunk being filled: a
    document joins it unless the chunk would then serialize to more than
    [max_payload_size], in which case the chunk is closed and the document
    starts the next one. *)
Fixpoint auto_batches (documents batch : list json) (max_payload_size : nat)
  : outcome (list (list json)) :=
  match documents with
  | [] => Ok (match batch with [] => [] | _ => [batch] end)
  | doc :: rest =>
      if (max_payload_size <? doc_size doc)%nat then Raise PayloadTooLarge
      else
        match batch with
        | [] => auto_batches rest [doc] max_payload_size
        | _ =>
            if (max_payload_size <? serialized_size (batch ++ [doc]))%nat then
              bind_outcome (auto_batches rest [doc] max_payload_size)
                           (fun chunks => Ok (batch :: chunks))
            else auto_batches rest (batch ++ [doc])%list max_payload_size
        end
  end.

Definition _generate_auto_batches (documents : list json) (max_payload_size : nat)
  : outcome (list (list json)) :=
  auto_batches documents [] max_payload_size.

(** ** index.py: uploading documents *)

Definition documents_url (self : Index) (primary_key : option string) : string :=
  "indexes/" ++ index_uid self ++ "/documents" ++
  match primary_key with
  | Some k => "?primaryKey=" ++ k
  | None => ""
  end.

(** Modelled from the spec: [index.py] is missing.  One request carries one
    list of documents; [POST] adds or replaces, [PUT] adds or updates. *)
Definition send_documents (m : http_method) (self : Index) (documents : list json)
  (primary_key : option string) : M TaskInfo :=
  response <- _send_request (index_client self) m (documents_url self primary_key)
                            (JsonContent (JArr documents)) ;;
  ret (TaskInfo_of (response_json response)).

Definition add_documents := send_documents POST.
Definition update_documents := send_documents PUT.

(** Modelled from the spec: "issue one request per chunk", each awaited
    before the next; "retry is not attempted; errors propagate to the
    caller". *)
Fixpoint upload_each (send_one : list json -> M TaskInfo) (chunks : list (list json))
  : M (list TaskInfo) :=
  match chunks with
  | [] => ret []
  | chunk :: rest =>
      r <- send_one chunk ;;
      rs <- upload_each send_one rest ;;
      ret (r :: rs)
  end.

(** Modelled from the spec: [index.py] is missing.  "Slices a document list
    into fixed-size ... groups" and uploads them one after the other. *)
Definition send_in_batches (m : http_method) (self : Index) (documents : list json)
  (batch_size : nat) (primary_key : option string) : M (list TaskInfo) :=
  chunks <- lift (_batch documents batch_size) ;;
  upload_each (fun chunk => send_documents m self chunk primary_key) chunks.

(** Modelled from the spec: [index.py] is missing.  The chunks bounded by
    payload size are computed, which fails on an oversized document, and then
    uploaded one after the other. *)
Definition send_auto_batch (m : http_method) (self : Index) (documents : list json)
  (max_payload_size : nat) (primary_key : option string) : M (list TaskInfo) :=
  chunks <- lift (_generate_auto_batches documents max_payload_size) ;;
  upload_each (fun chunk => send_documents m self chunk primary_key) chunks.

Definition add_documents_in_batches := send_in_batches POST.
Definition update_documents_in_batches := send_in_batches PUT.
Definition add_documents_auto_batch := send_auto_batch POST.
Definition update_documents_auto_batch := send_auto_batch PUT.

(** ** index.py: documents from files *)

(** The part of [s] after the last [c]. *)
Fixpoint after_last (c : ascii) (s : string) : option string :=
  match s with
  | EmptyString => None
  | String a rest =>
      match after_last c rest with
      | Some t => Some t
      | None => if Ascii.eqb a c then Some rest else None
      end
  end.

(** [Path(path).name] and [Path(path).suffix]: the extension starts at the
    last dot of the final component, unless that dot begins or ends it. *)
Definition path_name (path : string) : string :=
  match after_last "/" path with
  | Some t => t
  | None => path
  end.

Definition suffix (path : string) : string :=
  let name := path_name path in
  match after_last "." name with
  | Some ext =>
      if ((String.length ext =? 0) || (String.length name =? S (String.length ext)))%nat
      then ""
      else "." ++ ext
  | None => ""
  end.

Definition document_suffixes : list string := [".json"; ".csv"; ".ndjson"].
Definition raw_suffixes : list string := [".csv"; ".ndjson"].

Definition supported (suffixes : list string) (path : string) : bool :=
  existsb (String.eqb (suffix path)) suffixes.

(** Modelled from the spec: [index.py] is missing.  "Local validation
    failures (bad file extension ...)": the extension is checked before the
    file is read. *)
Definition _load_documents_from_file (file_path : string) : outcome (list json) :=
  if negb (supported document_suffixes file_path) then Raise MeiliSearchError
  else load_file file_path.

(** Modelled from the spec: [index.py] is missing.  The variants that take a
    file load its documents and go on as the ones that take documents. *)
Definition send_from_file (m : http_method) (self : Index) (file_path : string)
  (primary_key : option string) : M TaskInfo :=
  documents <- lift (_load_documents_from_file file_path) ;;
  send_documents m self documents primary_key.

Definition send_from_file_in_batches (m : http_method) (self : Index) (file_path : string)
  (batch_size : nat) (primary_key : option string) : M (list TaskInfo) :=
  documents <- lift (_load_documents_from_file file_path) ;;
  send_in_batches m self documents batch_size primary_key.

Definition send_from_file_auto_batch (m : http_method) (self : Index) (file_path : string)
  (max_payload_size : nat) (primary_key : option string) : M (list TaskInfo) :=
  documents <- lift (_load_documents_from_file file_path) ;;
  send_auto_batch m self documents max_payload_size primary_key.

(** Modelled from the spec: [index.py] is missing.  The file is sent as it
    is; a missing file and an extension other than csv or ndjson are refused
    before anything is sent (the tests expect [MeiliSearchError] and
    [ValueError]). *)
Definition send_from_raw_file (m : http_method) (self : Index) (file_path : string)
  (primary_key : option string) : M TaskInfo :=
  if negb (file_exists file_path) then raise MeiliSearchError
  else if negb (supported raw_suffixes file_path) then raise ValueError
  else
    response <- _send_request (index_client self) m (documents_url self primary_key)
                              (RawContent (read_bytes file_path)) ;;
    ret (TaskInfo_of (response_json response)).

Definition add_documents_from_file := send_from_file POST.
Definition update_documents_from_file := send_from_file PUT.
Definition add_documents_from_file_in_batches := send_from_file_in_batches POST.
Definition update_documents_from_file_in_batches := send_from_file_in_batches PUT.
Definition add_documents_from_file_auto_batch := send_from_file_auto_batch POST.
Definition update_documents_from_file_auto_batch := send_from_file_auto_batch PUT.
Definition add_documents_from_raw_file := send_from_raw_file POST.
Definition update_documents_from_raw_file := send_from_raw_file PUT.

(** ** Reading a trace *)

Definition new_events (w w' : World) : list event := skipn (List.length (trace w)) (trace w').

(** The requests of a trace, in the order they were issued. *)
Fixpoint issued (evs : list event) : list Request :=
  match evs with
  | [] => []
  | Issued _ r :: rest => r :: issued rest
  | Completed _ _ _ :: rest => issued rest
  end.

(** A trace in which every request is answered before the next is issued. *)
Inductive sequential : list event -> Prop :=
| sequential_nil : sequential []
| sequential_cons : forall t t' r resp rest,
    sequential rest ->
    sequential (Issued t r :: Completed t' r resp :: rest).

(** What an upload of [chunks] leaves behind: the requests of some first [k]
    chunks, in their order, each answered before the next; all of them when
    the upload returns. *)
Definition uploads_in_order (requests : list Request) (w : World)
  (res : World * outcome (list TaskInfo)) : Prop :=
  exists k,
    sequential (new_events w (fst res)) /\
    issued (new_events w (fst res)) = firstn k requests /\
    (is_ok (snd res) = true -> k = List.length requests).

Definition chunk_request (m : http_method) (self : Index) (primary_key : option string)
  (chunk : list json) : Request :=
  mkRequest m (base_url (index_client self)) (documents_url self primary_key)
            (headers (index_client self)) (JsonContent (JArr chunk)).

(** * Facts *)

(** ** Python values *)

Lemma list_string_eqb_spec : forall xs ys, list_string_eqb xs ys = true <-> xs = ys.
Proof.
  induction xs as [|x xs IH]; destruct ys as [|y ys]; simpl; split;
    try congruence; try reflexivity.
  - intros H. apply andb_true_iff in H as [Hx Hr].
    apply String.eqb_eq in Hx. apply IH in Hr. congruence.
  - intros H. injection H as -> ->. rewrite String.eqb_refl. simpl. now apply IH.
Qed.

Lemma comprehension_length {A B} (f : A -> outcome B) :
  forall xs ys, comprehension f xs = Ok ys -> List.length ys = List.length xs.
Proof.
  induction xs as [|x xs IH]; simpl; intros ys H.
  - injection H as <-. reflexivity.
  - destruct (f x) as [y| |]; simpl in H; try discriminate.
    destruct (comprehension f xs) as [l| |]; simpl in H; try discriminate.
    injection H as <-. simpl. f_equal. now apply IH.
Qed.

Lemma truthy_py_iter_nonempty :
  forall j items, truthy j = true -> py_iter j = Ok items -> items <> [].
Proof.
  intros j items Ht Hi. destruct j as [ |b|n|s|l|kv]; simpl in *; try discriminate.
  - injection Hi as <-. destruct s; simpl in *; discriminate.
  - injection Hi as <-. destruct l; discriminate.
  - injection Hi as <-. destruct kv; simpl in *; discriminate.
Qed.

Lemma send_trace : forall c m path body w,
  trace (fst (send c m path body w)) =
  (trace w ++
   [Issued (now w) (mkRequest m (base_url c) path (headers c) body);
    Completed (now (fst (send c m path body w)))
              (mkRequest m (base_url c) path (headers c) body)
              (snd (send c m path body w))])%list.
Proof.
  intros. unfold send.
  destruct (serve _ _) as [s' resp]. reflexivity.
Qed.

Lemma send_now : forall c m path body w,
  now (fst (send c m path body w)) =
  (now w + rtt (server w) (mkRequest m (base_url c) path (headers c) body))%Z.
Proof.
  intros. unfold send.
  destruct (serve _ _) as [s' resp]. reflexivity.
Qed.

Lemma send_response : forall c m path body w,
  snd (send c m path body w) =
  snd (serve (server w) (mkRequest m (base_url c) path (headers c) body)).
Proof.
  intros. unfold send.
  destruct (serve _ _) as [s' resp]. reflexivity.
Qed.

Lemma _send_request_spec : forall c m path body w,
  _send_request c m path body w =
  (fst (send c m path body w),
   if is_success (status_code (snd (send c m path body w)))
   then Ok (snd (send c m path body w))
   else Raise (MeiliSearchApiError (status_code (snd (send c m path body w))))).
Proof.
  intros. unfold _send_request.
  destruct (send c m path body w) as [w1 resp]. simpl.
  destruct (is_success (status_code resp)); reflexivity.
Qed.

Lemma is_terminal_spec :
  forall s, is_terminal s = true <-> s = "succeeded" \/ s = "failed".
Proof.
  intros s. unfold is_terminal, terminal_statuses. simpl.
  rewrite !orb_true_iff, !String.eqb_eq. split.
  - intros [H | [H | H]]; [now left | now right | discriminate].
  - intros [H | H]; [now left | right; now left].
Qed.


(** The polling loop, from any point of it: what it leaves in the trace and
    how it ends, when the fuel covers the time left. *)
Lemma poll_task_spec :
  forall terminal c url start timeout interval,
    (0 < interval)%Z ->
    (forall s r, 0 <= rtt s r)%Z ->
    forall fuel w,
      (Z.max 0 (timeout - (now w - start)) < Z.of_nat fuel)%Z ->
      exists polls,
        trace (fst (poll_task terminal fuel c url start timeout interval w)) =
          (trace w ++ flat_map (poll_events c url) polls)%list /\
        Forall (fun p => t0 p - start < timeout)%Z polls /\
        (now w <= now (fst (poll_task terminal fuel c url start timeout interval w)))%Z /\
        match snd (poll_task terminal fuel c url start timeout interval w) with
        | Ok st =>
            exists pre p, polls = (pre ++ [p])%list /\ Forall (pending terminal) pre /\
                          is_success (status_code (answer p)) = true /\
                          st = observed p /\
                          existsb (String.eqb (status st)) terminal = true
        | Raise e =>
            (e = MeiliSearchTimeoutError /\ Forall (pending terminal) polls /\
             (timeout <=
              now (fst (poll_task terminal fuel c url start timeout interval w)) - start)%Z)
            \/
            (exists pre p, polls = (pre ++ [p])%list /\ Forall (pending terminal) pre /\
                           is_success (status_code (answer p)) = false /\
                           e = MeiliSearchApiError (status_code (answer p)))
        | OutOfFuel => False
        end.
Proof.
  intros terminal c url start timeout interval Hint Hrtt.
  induction fuel as [|fuel IH]; intros w Hfuel.
  - simpl in Hfuel. lia.
  - simpl. destruct (now w - start <? timeout)%Z eqn:Hlt.
    + apply Z.ltb_lt in Hlt. rewrite _send_request_spec.
      pose proof (send_trace c GET url NoContent w) as Htr.
      pose proof (send_now c GET url NoContent w) as Hnow.
      specialize (Hrtt (server w)
                       (mkRequest GET (base_url c) url (headers c) NoContent)).
      destruct (send c GET url NoContent w) as [w1 resp] eqn:Hsend.
      cbn [fst snd] in *.
      set (p := mkPoll (now w) (now w1) resp).
      destruct (is_success (status_code resp)) eqn:Hok.
      * destruct (existsb (String.eqb (status (TaskStatus_of (response_json resp))))
                          terminal) eqn:Hterm.
        -- exists [p]. cbn [fst snd flat_map poll_events app].
           split; [rewrite Htr; reflexivity|].
           split; [constructor; [simpl; lia | constructor]|].
           split; [lia|].
           exists [], p. repeat split; auto.
        -- destruct (IH (sleep interval w1)) as [polls (Ht & Hall & Hmono & Hres)].
           { simpl. lia. }
           assert (Hp : pending terminal p) by (split; assumption).
           exists (p :: polls). simpl in Ht, Hmono.
           split; [rewrite Ht, Htr, <- app_assoc; reflexivity|].
           split; [constructor; [simpl; lia | exact Hall]|].
           split; [lia|].
           destruct (snd (poll_task terminal fuel c url start timeout interval
                                    (sleep interval w1))) as [st|e|].
           ++ destruct Hres as (pre & q & -> & Hpre & Hq & Hst & Hin).
              exists (p :: pre), q.
              split; [reflexivity|]. split; [constructor; assumption|].
              split; [exact Hq|]. split; assumption.
           ++ destruct Hres as [(-> & Hpend & Hto) | (pre & q & -> & Hpre & Hq & ->)].
              ** left. split; [reflexivity|]. split; [constructor; assumption | exact Hto].
              ** right. exists (p :: pre), q.
                 split; [reflexivity|]. split; [constructor; assumption|].
                 split; [exact Hq | reflexivity].
           ++ exact Hres.
      * exists [p]. cbn [fst snd flat_map poll_events app].
        split; [rewrite Htr; reflexivity|].
        split; [constructor; [simpl; lia | constructor]|].
        split; [lia|].
        right. exists [], p. repeat split; auto.
    + apply Z.ltb_ge in Hlt. exists []. simpl.
      split; [now rewrite app_nil_r|]. split; [constructor|]. split; [lia|].
      left. split; [reflexivity|]. split; [constructor | exact Hlt].
Qed.

Lemma poll_task_terminal :
  forall terminal c url start timeout interval fuel w st,
    snd (poll_task terminal fuel c url start timeout interval w) = Ok st ->
    existsb (String.eqb (status st)) terminal = true.
Proof.
  intros terminal c url start timeout interval.
  induction fuel as [|fuel IH]; intros w st H; simpl in H.
  - discriminate.
  - destruct (now w - start <? timeout)%Z; [|discriminate].
    destruct (_send_request c GET url NoContent w) as [w1 [resp|e|]]; try discriminate.
    destruct (existsb (String.eqb (status (TaskStatus_of (response_json resp))))
                      terminal) eqn:Hterm.
    + simpl in H. injection H as <-. exact Hterm.
    + eapply IH. exact H.
Qed.


(** ** Task polling *)


(** ** The client *)

(** C8.  When the delete request is accepted, its answer names a task and the
    wait for that task ends with a status, that status is terminal and
    [delete_index_if_exists] returns: [True] if and only if the status is
    "succeeded", [False] for any other; the first thing it sent is the
    [DELETE] of [indexes/<uid>]. *)
Theorem delete_index_if_exists_true_iff_succeeded :
  forall fuel self uid w w1 response task_id w2 st,
    _send_request (http_client self) DELETE ("indexes/" ++ uid) NoContent w
      = (w1, Ok response) ->
    subscript (response_json response) "uid" = Ok task_id ->
    wait_for_task fuel (http_client self) task_id
                  default_timeout_in_ms default_interval_in_ms w1 = (w2, Ok st) ->
    exists b,
      delete_index_if_exists fuel self uid w = (w2, Ok b) /\
      (b = true <-> status st = "succeeded") /\
      (status st = "succeeded" \/ status st = "failed") /\
      firstn 1 (new_events w w1) =
        [Issued (now w) (mkRequest DELETE (base_url (http_client self)) ("indexes/" ++ uid)
                                   (headers (http_client self)) NoContent)].
Proof.
  intros fuel self uid w w1 response task_id w2 st Hdel Hsub Hwait.
  exists (String.eqb (status st) "succeeded"). repeat split.
  - unfold delete_index_if_exists, http_delete, bind, lift, ret.
    rewrite Hdel, Hsub, Hwait.
    destruct (String.eqb (status st) "succeeded"); reflexivity.
  - apply String.eqb_eq.
  - apply String.eqb_eq.
  - apply is_terminal_spec. unfold wait_for_task in Hwait.
    eapply poll_task_terminal. rewrite Hwait. reflexivity.
  - rewrite _send_request_spec in Hdel. injection Hdel as Hw1 _.
    unfold new_events. rewrite <- Hw1, send_trace.
    rewrite skipn_app, skipn_all, Nat.sub_diag. reflexivity.
Qed.

(** [delete_index_if_exists] returns a boolean on no other path. *)
Lemma delete_index_if_exists_returns_after_wait :
  forall fuel self uid w w2 b,
    delete_index_if_exists fuel self uid w = (w2, Ok b) ->
    exists w1 response task_id st,
      _send_request (http_client self) DELETE ("indexes/" ++ uid) NoContent w
        = (w1, Ok response) /\
      subscript (response_json response) "uid" = Ok task_id /\
      wait_for_task fuel (http_client self) task_id
                    default_timeout_in_ms default_interval_in_ms w1 = (w2, Ok st) /\
      b = String.eqb (status st) "succeeded".
Proof.
  intros fuel self uid w w2 b H.
  unfold delete_index_if_exists, http_delete, bind, lift, ret in H.
  destruct (_send_request (http_client self) DELETE ("indexes/" ++ uid) NoContent w)
    as [w1 [response| |]]; try discriminate.
  destruct (subscript (response_json response) "uid") as [task_id| |] eqn:Hsub;
    try discriminate.
  destruct (wait_for_task fuel (http_client self) task_id
                          default_timeout_in_ms default_interval_in_ms w1)
    as [w3 [st| |]] eqn:Hwait; try discriminate.
  exists w1, response, task_id, st.
  destruct (String.eqb (status st) "succeeded"); injection H as <- <-;
    (split; [reflexivity | split; [exact Hsub | split; [exact Hwait | reflexivity]]]).
Qed.

(** C10.  When the listing of the indexes is answered with success and a body
    that is empty (an empty list, or any other false value), [get_indexes] and
    [get_raw_indexes] return [None]; neither ever returns an empty list; and
    [get_raw_index] returns [None] exactly when the status of the answer is
    404. *)
Theorem absent_indexes_are_None :
  forall self uid w,
    (forall listing,
        listing = snd (send (http_client self) GET "indexes" NoContent w) ->
        is_success (status_code listing) = true ->
        response_json listing = JArr [] \/ truthy (response_json listing) = false ->
        snd (get_indexes self w) = Ok None /\ snd (get_raw_indexes self w) = Ok None) /\
    snd (get_indexes self w) <> Ok (Some []) /\
    snd (get_raw_indexes self w) <> Ok (Some []) /\
    (snd (get_raw_index self uid w) = Ok None <->
     status_code (snd (send (http_client self) GET ("indexes/" ++ uid) NoContent w)) = 404%Z).
Proof.
  intros self uid w. split; [|split; [|split]].
  - intros listing -> Hok Hempty.
    assert (Hfalse : truthy (response_json
              (snd (send (http_client self) GET "indexes" NoContent w))) = false).
    { destruct Hempty as [-> | H]; [reflexivity | exact H]. }
    unfold get_indexes, get_raw_indexes, http_get, bind, ret.
    rewrite _send_request_spec, Hok, Hfalse. simpl. split; reflexivity.
  - unfold get_indexes, http_get, bind, ret, lift.
    rewrite _send_request_spec.
    destruct (is_success _); [|simpl; discriminate].
    destruct (truthy (response_json _)) eqn:Ht; simpl; [|discriminate].
    destruct (py_iter _) as [items| |] eqn:Hi; simpl; try discriminate.
    destruct (comprehension _ items) as [l| |] eqn:Hc; simpl; try discriminate.
    intros H. injection H as ->.
    apply comprehension_length in Hc. simpl in Hc.
    apply (truthy_py_iter_nonempty _ _ Ht Hi).
    destruct items; [reflexivity | discriminate].
  - unfold get_raw_indexes, http_get, bind, ret, lift.
    rewrite _send_request_spec.
    destruct (is_success _); [|simpl; discriminate].
    destruct (truthy (response_json _)) eqn:Ht; simpl; [|discriminate].
    destruct (py_iter _) as [items| |] eqn:Hi; simpl; try discriminate.
    destruct (comprehension _ items) as [l| |] eqn:Hc; simpl; try discriminate.
    intros H. injection H as ->.
    apply comprehension_length in Hc. simpl in Hc.
    apply (truthy_py_iter_nonempty _ _ Ht Hi).
    destruct items; [reflexivity | discriminate].
  - unfold get_raw_index, bind, ret, lift.
    destruct (send (http_client self) GET ("indexes/" ++ uid) NoContent w)
      as [w1 response]. simpl.
    destruct (status_code response =? 404)%Z eqn:H404.
    + apply Z.eqb_eq in H404. simpl. split; intros; [exact H404 | reflexivity].
    + apply Z.eqb_neq in H404.
      destruct (IndexInfo_init (response_json response)); simpl;
        split; intros H; try discriminate; contradiction.
Qed.

Lemma check_restriction_refuses :
  forall payload jk items index,
    dict_get "indexes" payload = Some (JArr items) ->
    In index items ->
    json_in index (indexes jk) = false ->
    check_restriction payload jk = Raise InvalidRestriction.
Proof.
  intros payload jk items index Hget Hin Hnot.
  unfold check_restriction. rewrite Hget.
  destruct items as [|i items']; [contradiction|]. cbn [truthy py_iter bind_outcome].
  destruct (forallb _ (i :: items')) eqn:Hall; [|reflexivity].
  rewrite forallb_forall in Hall. rewrite (Hall _ Hin) in Hnot. discriminate.
Qed.

Lemma check_restriction_allows :
  forall payload jk items index,
    check_restriction payload jk = Ok tt ->
    dict_get "indexes" payload = Some (JArr items) ->
    In index items ->
    json_in index (indexes jk) = true.
Proof.
  intros payload jk items index Hok Hget Hin.
  destruct (json_in index (indexes jk)) eqn:Hj; [reflexivity|].
  rewrite (check_restriction_refuses _ _ _ _ Hget Hin Hj) in Hok. discriminate.
Qed.

(** C9.  [generate_tenant_token] raises [InvalidKeyError], before sending
    anything, when a key is given whose actions are not exactly ["search"];
    raises [KeyNotFoundError] when no key is given and none of the keys
    retrieved has "Default Search API Key" in its description; raises
    [InvalidRestriction] when the payload's "indexes" holds an index that is
    not among the indexes of the signing key; and when it returns a token, a
    signing key was found (the given one, with actions exactly ["search"], or
    a retrieved one with that description), every index of the payload is
    among the key's, and the token is the payload signed with that key. *)
Theorem generate_tenant_token_validates :
  forall self payload given_key w,
    (forall k, given_key = Some k -> actions k <> ["search"] ->
       generate_tenant_token self payload given_key w = (w, Raise InvalidKeyError)) /\
    (forall w1 keys, given_key = None -> get_keys self w = (w1, Ok keys) ->
       Forall (fun k => contains "Default Search API Key" (description k) = false) keys ->
       generate_tenant_token self payload given_key w = (w1, Raise KeyNotFoundError)) /\
    (forall w1 jk items index,
       find_jwt_key self given_key w = (w1, Ok (Some jk)) ->
       dict_get "indexes" payload = Some (JArr items) ->
       In index items -> json_in index (indexes jk) = false ->
       generate_tenant_token self payload given_key w = (w1, Raise InvalidRestriction)) /\
    (forall w1 token,
       generate_tenant_token self payload given_key w = (w1, Ok token) ->
       exists jk,
         find_jwt_key self given_key w = (w1, Ok (Some jk)) /\
         match given_key with
         | Some k => jk = k /\ actions k = ["search"] /\ w1 = w
         | None => exists keys, get_keys self w = (w1, Ok keys) /\ In jk keys /\
                     contains "Default Search API Key" (description jk) = true
         end /\
         (forall items index, dict_get "indexes" payload = Some (JArr items) ->
            In index items -> json_in index (indexes jk) = true) /\
         token = jwt_encode payload (key jk)).
Proof.
  intros self payload given_key w. split; [|split; [|split]].
  - intros k -> Hact.
    unfold generate_tenant_token, find_jwt_key, bind, raise.
    destruct (list_string_eqb (actions k) ["search"]) eqn:He.
    + apply list_string_eqb_spec in He. contradiction.
    + reflexivity.
  - intros w1 keys -> Hkeys Hnone.
    unfold generate_tenant_token, find_jwt_key, bind, ret, raise. rewrite Hkeys.
    destruct (find _ keys) as [k|] eqn:Hfind; [|reflexivity].
    apply find_some in Hfind as [Hin Hc].
    rewrite Forall_forall in Hnone. rewrite (Hnone _ Hin) in Hc. discriminate.
  - intros w1 jk items index Hkey Hget Hin Hnot.
    unfold generate_tenant_token, bind, lift. rewrite Hkey.
    rewrite (check_restriction_refuses _ _ _ _ Hget Hin Hnot). reflexivity.
  - intros w1 token Htok.
    unfold generate_tenant_token, bind, lift, ret, raise in Htok.
    destruct (find_jwt_key self given_key w) as [w0 r] eqn:Hkey.
    destruct r as [[jk|]| |]; try discriminate.
    destruct (check_restriction payload jk) as [[]| |] eqn:Hchk; try discriminate.
    injection Htok as <- <-. exists jk. split; [reflexivity|]. split; [|split].
    + unfold find_jwt_key, bind, ret, raise in Hkey. destruct given_key as [k|].
      * destruct (list_string_eqb (actions k) ["search"]) eqn:He; simpl in Hkey.
        -- injection Hkey as <- <-. apply list_string_eqb_spec in He. auto.
        -- discriminate.
      * destruct (get_keys self w) as [w' [keys| |]] eqn:Hkeys; try discriminate.
        injection Hkey as <- Hfind. exists keys. split; [reflexivity|].
        apply find_some in Hfind. exact Hfind.
    + intros items index. apply check_restriction_allows. exact Hchk.
    + reflexivity.
Qed.

(** C7.  The client made by [Client] carries an [Authorization] header exactly
    when an api key is given that is not the empty string, and the header is
    then "Bearer " followed by the key; without an api key there is no such
    header. *)
Theorem Client_init_authorization :
  forall url api_key timeout,
    (forall v,
       header "Authorization" (headers (http_client (Client_init url api_key timeout))) = Some v
       <-> exists k, api_key = Some k /\ k <> "" /\ v = "Bearer " ++ k) /\
    (api_key = None ->
       header "Authorization" (headers (http_client (Client_init url api_key timeout))) = None).
Proof.
  intros url api_key timeout. split.
  - intros v. unfold Client_init. simpl. destruct api_key as [k|]; simpl.
    + destruct (String.eqb k "") eqn:He; simpl.
      * apply String.eqb_eq in He. split; [discriminate|].
        intros (k' & Hk & Hne & _). congruence.
      * apply String.eqb_neq in He. split.
        -- intros H. injection H as <-. exists k. auto.
        -- intros (k' & Hk & _ & ->). congruence.
    + split; [discriminate|]. intros (k' & Hk & _). discriminate.
  - intros ->. reflexivity.
Qed.

(** Every request the client sends carries the headers it was made with. *)
Lemma send_carries_headers :
  forall c m path body w,
    Forall (fun r => req_headers r = headers c)
           (issued (new_events w (fst (send c m path body w)))).
Proof.
  intros. unfold new_events. rewrite send_trace.
  rewrite skipn_app, skipn_all, Nat.sub_diag. simpl.
  constructor; [reflexivity | constructor].
Qed.

(** ** Batching by count *)

Lemma ceil_div_step :
  forall m d, 0 < d -> 0 < m -> ceil_div m d = S (ceil_div (m - d) d).
Proof.
  intros m d Hd Hm. unfold ceil_div.
  destruct (le_lt_dec d m) as [Hle | Hlt].
  - replace (m + d - 1) with ((m - d + d - 1) + 1 * d) by lia.
    rewrite Nat.div_add by lia. lia.
  - replace (m - d) with 0 by lia. simpl.
    rewrite (Nat.div_small (d - 1) d) by lia.
    symmetry. apply (Nat.div_unique _ _ 1 (m - 1)); lia.
Qed.

Lemma ceil_div_0 : forall d, 0 < d -> ceil_div 0 d = 0.
Proof. intros d Hd. unfold ceil_div. simpl. apply Nat.div_small. lia. Qed.

Lemma boundaries_spec {A} :
  forall (l : list A) step, 0 < step ->
  forall fuel start, List.length l - start <= fuel ->
    exists starts,
      boundaries fuel start (List.length l) step = Some starts /\
      List.length starts = ceil_div (List.length l - start) step /\
      List.concat (map (fun i => slice l i (i + step)) starts) = skipn start l.
Proof.
  intros l step Hstep. induction fuel as [|fuel IH]; intros start Hfuel; simpl.
  - replace (start <? List.length l)%nat with false
      by (symmetry; apply Nat.ltb_ge; lia).
    exists []. split; [reflexivity|]. split.
    + replace (List.length l - start) with 0 by lia. now rewrite ceil_div_0.
    + symmetry. apply skipn_all2. lia.
  - destruct (start <? List.length l)%nat eqn:Hlt.
    + apply Nat.ltb_lt in Hlt.
      destruct (IH (start + step)) as (starts & -> & Hlen & Hcat); [lia|].
      exists (start :: starts). split; [reflexivity|]. split.
      * simpl. rewrite Hlen.
        rewrite (ceil_div_step (List.length l - start) step) by lia.
        do 2 f_equal. lia.
      * simpl. rewrite Hcat. unfold slice.
        replace (start + step - start) with step by lia.
        replace (start + step) with (step + start) by lia.
        rewrite <- skipn_skipn. apply firstn_skipn.
    + apply Nat.ltb_ge in Hlt. exists []. split; [reflexivity|]. split.
      * replace (List.length l - start) with 0 by lia. now rewrite ceil_div_0.
      * symmetry. now apply skipn_all2.
Qed.

Lemma slice_length_le {A} :
  forall (l : list A) i step, List.length (slice l i (i + step)) <= step.
Proof.
  intros. unfold slice. rewrite length_firstn. lia.
Qed.

Lemma _batch_partition :
  forall documents batch_size, 0 < batch_size ->
    exists chunks,
      _batch documents batch_size = Ok chunks /\
      List.concat chunks = documents /\
      List.length chunks = ceil_div (List.length documents) batch_size /\
      Forall (fun chunk => List.length chunk <= batch_size) chunks.
Proof.
  intros documents batch_size Hpos. unfold _batch.
  destruct (boundaries_spec documents batch_size Hpos (List.length documents) 0)
    as (starts & -> & Hlen & Hcat); [lia|].
  eexists. split; [reflexivity|]. split; [exact Hcat|]. split.
  - rewrite length_map, Hlen. f_equal. lia.
  - apply Forall_map. apply Forall_forall. intros i _. apply slice_length_le.
Qed.

(** With a batch size of 0 and a document to send, the boundaries never
    advance. *)
Lemma _batch_zero :
  forall doc documents, _batch (doc :: documents) 0 = OutOfFuel.
Proof.
  intros doc documents. unfold _batch.
  assert (H : forall fuel, boundaries fuel 0 (S (List.length documents)) 0 = None).
  { induction fuel as [|fuel IH]; simpl; [reflexivity|]. now rewrite IH. }
  simpl List.length. now rewrite H.
Qed.

(** ** Batching by size *)

Lemma auto_batches_spec :
  forall max documents batch chunks,
    batch = [] \/
    (Forall (fun doc => doc_size doc <= max) batch /\
     (List.length batch = 1 \/ serialized_size batch <= max)) ->
    auto_batches documents batch max = Ok chunks ->
    List.concat chunks = (batch ++ documents)%list /\
    Forall (fun chunk => chunk <> [] /\
                         Forall (fun doc => doc_size doc <= max) chunk /\
                         (List.length chunk = 1 \/ serialized_size chunk <= max))
           chunks.
Proof.
  intros max. induction documents as [|doc rest IH]; intros batch chunks Hb H;
    simpl in H.
  - injection H as <-. destruct batch as [|d batch'].
    + split; [reflexivity | constructor].
    + split; [simpl; now rewrite !app_nil_r|].
      destruct Hb as [Hb | [Hall Hsize]]; [discriminate|].
      constructor; [|constructor]. split; [discriminate|]. split; assumption.
  - destruct (max <? doc_size doc)%nat eqn:Hbig; [discriminate|].
    apply Nat.ltb_ge in Hbig.
    assert (Hone : Forall (fun d => doc_size d <= max) [doc] /\
                   (List.length [doc] = 1 \/ serialized_size [doc] <= max)).
    { split; [constructor; [exact Hbig | constructor] | left; reflexivity]. }
    destruct batch as [|d batch'].
    + destruct (IH [doc] chunks (or_intror Hone) H) as [Hcat Hall].
      split; [exact Hcat | exact Hall].
    + destruct Hb as [Hb | [Hall Hsize]]; [discriminate|].
      destruct (max <? serialized_size ((d :: batch') ++ [doc]))%nat eqn:Hfull.
      * destruct (auto_batches rest [doc] max) as [chunks'| |] eqn:Hrest;
          simpl in H; try discriminate.
        injection H as <-.
        destruct (IH [doc] chunks' (or_intror Hone) Hrest) as [Hcat Hall'].
        split.
        -- cbn [List.concat]. rewrite Hcat. reflexivity.
        -- constructor; [|exact Hall']. split; [discriminate|]. split; assumption.
      * apply Nat.ltb_ge in Hfull.
        assert (Hext : Forall (fun d0 => doc_size d0 <= max) ((d :: batch') ++ [doc]) /\
                       (List.length ((d :: batch') ++ [doc]) = 1 \/
                        serialized_size ((d :: batch') ++ [doc]) <= max)).
        { split; [|right; exact Hfull].
          apply Forall_app. split; [exact Hall | constructor; [exact Hbig | constructor]]. }
        destruct (IH ((d :: batch') ++ [doc])%list chunks (or_intror Hext) H)
          as [Hcat Hall'].
        split; [|exact Hall']. rewrite Hcat, <- app_assoc. reflexivity.
Qed.

Lemma auto_batches_oversized :
  forall max documents batch,
    Exists (fun doc => max < doc_size doc) documents ->
    auto_batches documents batch max = Raise PayloadTooLarge.
Proof.
  intros max. induction documents as [|doc rest IH]; intros batch Hex.
  - inversion Hex.
  - simpl. destruct (max <? doc_size doc)%nat eqn:Hbig; [reflexivity|].
    apply Nat.ltb_ge in Hbig.
    assert (Hrest : Exists (fun d => max < doc_size d) rest).
    { inversion Hex; subst; [lia | assumption]. }
    destruct batch as [|d batch']; [apply IH; exact Hrest|].
    destruct (max <? serialized_size ((d :: batch') ++ [doc]))%nat.
    + rewrite (IH _ Hrest). reflexivity.
    + apply IH. exact Hrest.
Qed.

Lemma auto_batches_total :
  forall max documents batch,
    Forall (fun doc => doc_size doc <= max) documents ->
    exists chunks, auto_batches documents batch max = Ok chunks.
Proof.
  intros max. induction documents as [|doc rest IH]; intros batch Hall; simpl.
  - eexists. reflexivity.
  - inversion Hall as [|? ? Hdoc Hrest]; subst.
    destruct (max <? doc_size doc)%nat eqn:Hbig.
    { apply Nat.ltb_lt in Hbig. lia. }
    destruct batch as [|d batch']; [apply IH; exact Hrest|].
    destruct (max <? serialized_size ((d :: batch') ++ [doc]))%nat.
    + destruct (IH [doc] Hrest) as [chunks ->]. simpl. eexists. reflexivity.
    + apply IH. exact Hrest.
Qed.

Lemma _generate_auto_batches_spec :
  forall max documents chunks,
    _generate_auto_batches documents max = Ok chunks ->
    List.concat chunks = documents /\
    Forall (fun chunk => chunk <> [] /\
                         Forall (fun doc => doc_size doc <= max) chunk /\
                         (List.length chunk = 1 \/ serialized_size chunk <= max))
           chunks.
Proof.
  intros max documents chunks H.
  apply (auto_batches_spec max documents [] chunks); [left; reflexivity | exact H].
Qed.

(** ** Uploading chunks *)

Lemma new_events_app : forall w w' evs,
  trace w' = (trace w ++ evs)%list -> new_events w w' = evs.
Proof.
  intros w w' evs H. unfold new_events. rewrite H.
  rewrite skipn_app, skipn_all, Nat.sub_diag. reflexivity.
Qed.

Lemma new_events_same : forall w, new_events w w = [].
Proof. intros w. apply new_events_app. now rewrite app_nil_r. Qed.

Lemma send_documents_trace :
  forall m self chunk pk w,
    exists t' resp,
      trace (fst (send_documents m self chunk pk w)) =
        (trace w ++ [Issued (now w) (chunk_request m self pk chunk);
                     Completed t' (chunk_request m self pk chunk) resp])%list /\
      snd (send_documents m self chunk pk w) <> OutOfFuel.
Proof.
  intros m self chunk pk w. unfold send_documents, bind, ret.
  rewrite _send_request_spec.
  pose proof (send_trace (index_client self) m (documents_url self pk)
                         (JsonContent (JArr chunk)) w) as Htr.
  destruct (send (index_client self) m (documents_url self pk)
                 (JsonContent (JArr chunk)) w) as [w1 resp].
  simpl in *. exists (now w1), resp.
  destruct (is_success (status_code resp)); simpl; split; auto; discriminate.
Qed.

Lemma upload_each_trace :
  forall m self pk chunks w,
    exists k evs,
      trace (fst (upload_each (fun chunk => send_documents m self chunk pk) chunks w)) =
        (trace w ++ evs)%list /\
      sequential evs /\
      issued evs = map (chunk_request m self pk) (firstn k chunks) /\
      match snd (upload_each (fun chunk => send_documents m self chunk pk) chunks w) with
      | Ok tasks => k = List.length chunks /\ List.length tasks = List.length chunks
      | Raise _ => True
      | OutOfFuel => False
      end.
Proof.
  intros m self pk. induction chunks as [|chunk rest IH]; intros w.
  - exists 0, []. simpl. rewrite app_nil_r. repeat split; constructor.
  - cbn [upload_each]. unfold bind, ret. cbv beta.
    destruct (send_documents_trace m self chunk pk w) as (t' & resp & Htr & Hfuel).
    destruct (send_documents m self chunk pk w) as [w1 r]. simpl in Htr, Hfuel.
    destruct r as [task|e|]; [| |contradiction].
    + destruct (IH w1) as (k & evs & Htr' & Hseq & Hiss & Hres).
      destruct (upload_each _ rest w1) as [w2 r2]. simpl in *.
      exists (S k), (Issued (now w) (chunk_request m self pk chunk)
                     :: Completed t' (chunk_request m self pk chunk) resp :: evs).
      split; [|split; [|split]].
      * destruct r2; simpl; rewrite Htr', Htr, <- app_assoc; reflexivity.
      * constructor. exact Hseq.
      * simpl. now rewrite Hiss.
      * destruct r2 as [tasks|e|]; simpl; auto.
        destruct Hres as [Hk Hlen]. simpl. split; congruence.
    + exists 1, [Issued (now w) (chunk_request m self pk chunk);
                 Completed t' (chunk_request m self pk chunk) resp].
      simpl. repeat split; auto. constructor. constructor.
Qed.

Lemma upload_each_in_order :
  forall m self pk chunks w,
    uploads_in_order (map (chunk_request m self pk) chunks) w
      (upload_each (fun chunk => send_documents m self chunk pk) chunks w).
Proof.
  intros m self pk chunks w.
  destruct (upload_each_trace m self pk chunks w) as (k & evs & Htr & Hseq & Hiss & Hres).
  exists k. rewrite (new_events_app _ _ _ Htr). split; [exact Hseq|]. split.
  - rewrite Hiss. symmetry. apply firstn_map.
  - rewrite length_map.
    destruct (snd (upload_each _ chunks w)); simpl; try discriminate.
    intros _. apply Hres.
Qed.

Lemma uploads_in_order_nothing :
  forall requests w r, is_ok r = false -> uploads_in_order requests w (w, r).
Proof.
  intros requests w r Hr. exists 0. simpl. rewrite new_events_same.
  repeat split; [constructor | congruence].
Qed.

Lemma ceil_div_spec :
  forall n d, 0 < d ->
    n <= ceil_div n d * d /\ (forall q, n <= q * d -> ceil_div n d <= q).
Proof.
  intros n d Hd. unfold ceil_div.
  pose proof (Nat.div_mod_eq (n + d - 1) d) as Hdm.
  assert (Hmod : (n + d - 1) mod d < d) by (apply Nat.mod_upper_bound; lia).
  split.
  - nia.
  - intros q Hq. nia.
Qed.

Lemma Forall_firstn {A} (P : A -> Prop) :
  forall k l, Forall P l -> Forall P (firstn k l).
Proof.
  intros k l H. rewrite <- (firstn_skipn k l) in H.
  apply Forall_app in H. exact (proj1 H).
Qed.

Lemma send_auto_batch_requests :
  forall m self documents max pk w,
    Forall (fun r => exists chunk,
                r = chunk_request m self pk chunk /\
                chunk <> [] /\
                (List.length chunk = 1 \/ serialized_size chunk <= max))
           (issued (new_events w (fst (send_auto_batch m self documents max pk w)))).
Proof.
  intros m self documents max pk w. unfold send_auto_batch, bind, lift.
  destruct (_generate_auto_batches documents max) as [chunks|e|] eqn:Hgen; simpl;
    try (rewrite new_events_same; constructor).
  destruct (upload_each_in_order m self pk chunks w) as (k & _ & -> & _).
  apply Forall_firstn. apply Forall_map.
  destruct (_generate_auto_batches_spec max documents chunks Hgen) as [_ Hall].
  eapply Forall_impl; [|exact Hall]. intros chunk (Hne & _ & Hle). exists chunk. auto.
Qed.

Lemma single_chunk_sum :
  forall max chunk,
    Forall (fun doc => doc_size doc <= max) chunk ->
    List.length chunk = 1 \/ serialized_size chunk <= max ->
    list_sum (map doc_size chunk) <= max.
Proof.
  intros max chunk Hall [Hone | Hsize].
  - destruct chunk as [|d [|d' rest]]; try discriminate.
    inversion Hall; subst. simpl. lia.
  - unfold serialized_size in Hsize. lia.
Qed.

Lemma unsupported_raw :
  forall path, supported document_suffixes path = false ->
               supported raw_suffixes path = false.
Proof.
  intros path. unfold supported, document_suffixes, raw_suffixes. simpl.
  destruct (String.eqb (suffix path) ".json"), (String.eqb (suffix path) ".csv"),
           (String.eqb (suffix path) ".ndjson"); simpl; congruence.
Qed.

Lemma supported_In :
  forall suffixes path, supported suffixes path = true <-> In (suffix path) suffixes.
Proof.
  intros suffixes path. unfold supported. rewrite existsb_exists. split.
  - intros (x & Hin & He). apply String.eqb_eq in He. now subst.
  - intros Hin. exists (suffix path). split; [exact Hin | apply String.eqb_refl].
Qed.

(** ** The document operations *)

(** C1.  For a positive batch size the batching ends with batches that are
    slices of the documents whose concatenation is the documents, there are
    [ceil(n / batch_size)] of them, none longer than the batch size; when
    [add_documents_in_batches] ([POST]) or [update_documents_in_batches]
    ([PUT]) returns, it has sent exactly these batches, in order, and returns
    as many tasks; the [_from_file_in_batches] variants do the same with the
    documents of the file. *)
Theorem in_batches_partitions :
  forall m self documents batch_size pk w,
    0 < batch_size ->
    exists chunks,
      _batch documents batch_size = Ok chunks /\
      List.concat chunks = documents /\
      List.length chunks = ceil_div (List.length documents) batch_size /\
      Forall (fun chunk => List.length chunk <= batch_size) chunks /\
      (forall w' tasks,
         send_in_batches m self documents batch_size pk w = (w', Ok tasks) ->
         issued (new_events w w') = map (chunk_request m self pk) chunks /\
         List.length tasks = ceil_div (List.length documents) batch_size) /\
      (forall file_path,
         _load_documents_from_file file_path = Ok documents ->
         send_from_file_in_batches m self file_path batch_size pk w
           = send_in_batches m self documents batch_size pk w).
Proof.
  intros m self documents batch_size pk w Hpos.
  destruct (_batch_partition documents batch_size Hpos)
    as (chunks & Hb & Hcat & Hlen & Hall).
  exists chunks. split; [exact Hb|]. split; [exact Hcat|]. split; [exact Hlen|].
  split; [exact Hall|]. split.
  - intros w' tasks H. unfold send_in_batches, bind, lift in H. rewrite Hb in H.
    split.
    + destruct (upload_each_in_order m self pk chunks w) as (k & _ & Hiss & Hk).
      destruct (upload_each _ chunks w) as [w2 [l| |]]; try discriminate.
      injection H as <- <-. cbn [fst snd] in *.
      rewrite Hiss, Hk by reflexivity. apply firstn_all.
    + destruct (upload_each_trace m self pk chunks w) as (k & evs & _ & _ & _ & Hres).
      destruct (upload_each _ chunks w) as [w2 [l| |]]; try discriminate.
      injection H as <- <-. cbn [fst snd] in Hres. destruct Hres as [_ ->]. exact Hlen.
  - intros file_path Hload. unfold send_from_file_in_batches, bind, lift.
    rewrite Hload. reflexivity.
Qed.

(** C2.  Every chunk the size-bounded batching produces, and so every chunk
    [add_documents_auto_batch], [update_documents_auto_batch] and the
    [_from_file_auto_batch] variants send as a JSON array, holds exactly one
    document or serializes to at most [max_payload_size] bytes. *)
Theorem auto_batch_chunks_within_bound :
  forall m self documents file_path max_payload_size pk w,
    (forall chunks,
       _generate_auto_batches documents max_payload_size = Ok chunks ->
       Forall (fun chunk => List.length chunk = 1 \/
                            serialized_size chunk <= max_payload_size)
              chunks) /\
    Forall (fun r => exists chunk,
                req_content r = JsonContent (JArr chunk) /\
                (List.length chunk = 1 \/ serialized_size chunk <= max_payload_size))
           (issued (new_events w
              (fst (send_auto_batch m self documents max_payload_size pk w)))) /\
    Forall (fun r => exists chunk,
                req_content r = JsonContent (JArr chunk) /\
                (List.length chunk = 1 \/ serialized_size chunk <= max_payload_size))
           (issued (new_events w
              (fst (send_from_file_auto_batch m self file_path max_payload_size pk w)))).
Proof.
  intros m self documents file_path max pk w.
  assert (Hreq : forall docs,
    Forall (fun r => exists chunk,
                req_content r = JsonContent (JArr chunk) /\
                (List.length chunk = 1 \/ serialized_size chunk <= max))
           (issued (new_events w (fst (send_auto_batch m self docs max pk w))))).
  { intros docs. eapply Forall_impl; [|apply send_auto_batch_requests].
    intros r (chunk & -> & _ & Hle). exists chunk. split; [reflexivity | exact Hle]. }
  split; [|split].
  - intros chunks Hgen.
    destruct (_generate_auto_batches_spec max documents chunks Hgen) as [_ Hall].
    eapply Forall_impl; [|exact Hall]. intros chunk (_ & _ & Hle). exact Hle.
  - apply Hreq.
  - unfold send_from_file_auto_batch, bind, lift.
    destruct (_load_documents_from_file file_path) as [docs|e|]; simpl;
      try (rewrite new_events_same; constructor).
    apply Hreq.
Qed.

(** C3.  When some document alone is larger than [max_payload_size],
    [add_documents_auto_batch] and [update_documents_auto_batch] raise
    [PayloadTooLarge] and send nothing; and whenever chunks are produced,
    none of them is empty, the documents of none add up to more than
    [max_payload_size], and none serializes to more than [max_payload_size]
    unless it holds a single document. *)
Theorem oversized_document_is_refused :
  forall m self documents max_payload_size pk w,
    (Exists (fun doc => max_payload_size < doc_size doc) documents ->
     send_auto_batch m self documents max_payload_size pk w = (w, Raise PayloadTooLarge)) /\
    (forall chunks,
       _generate_auto_batches documents max_payload_size = Ok chunks ->
       Forall (fun chunk => chunk <> [] /\
                            list_sum (map doc_size chunk) <= max_payload_size /\
                            (List.length chunk = 1 \/
                             serialized_size chunk <= max_payload_size))
              chunks).
Proof.
  intros m self documents max pk w. split.
  - intros Hex. unfold send_auto_batch, _generate_auto_batches, bind, lift.
    rewrite (auto_batches_oversized max documents [] Hex). reflexivity.
  - intros chunks Hgen.
    destruct (_generate_auto_batches_spec max documents chunks Hgen) as [_ Hall].
    eapply Forall_impl; [|exact Hall]. intros chunk (Hne & Hdocs & Hsize).
    split; [exact Hne|]. split; [|exact Hsize].
    now apply (single_chunk_sum max chunk).
Qed.

(** C5.  For a path whose extension is none of .json, .csv and .ndjson, the
    operations that read documents from a file raise [MeiliSearchError] and
    the ones that send a raw file raise [MeiliSearchError] or [ValueError];
    none of them sends a request. *)
Theorem unsupported_extension_is_refused :
  forall m self file_path batch_size max_payload_size pk w,
    ~ In (suffix file_path) document_suffixes ->
    send_from_file m self file_path pk w = (w, Raise MeiliSearchError) /\
    send_from_file_in_batches m self file_path batch_size pk w
      = (w, Raise MeiliSearchError) /\
    send_from_file_auto_batch m self file_path max_payload_size pk w
      = (w, Raise MeiliSearchError) /\
    exists e, send_from_raw_file m self file_path pk w = (w, Raise e) /\
              (e = MeiliSearchError \/ e = ValueError).
Proof.
  intros m self file_path batch_size max pk w Hbad.
  assert (Hdoc : supported document_suffixes file_path = false).
  { destruct (supported document_suffixes file_path) eqn:Hs; [|reflexivity].
    apply supported_In in Hs. contradiction. }
  pose proof (unsupported_raw _ Hdoc) as Hraw.
  unfold send_from_file, send_from_file_in_batches, send_from_file_auto_batch,
    send_from_raw_file, _load_documents_from_file, bind, lift, raise.
  rewrite Hdoc, Hraw. simpl. repeat split.
  destruct (file_exists file_path); simpl; eexists; split; eauto.
Qed.

(** * More of the client *)

(** ** tests/test_documents.py: the movies the tests generate *)

(** [range(n)]. *)
Definition py_range (n : Z) : list Z := map Z.of_nat (seq 0 (Z.to_nat n)).

(** The dict built in the loop of [generate_test_movies] at index [i]. *)
Definition test_movie (i id_start : Z) : json :=
  JObj [("id", JNum (i + id_start));
        ("title", JStr "test");
        ("poster", JStr "test");
        ("overview", JStr "test");
        ("release_date", JNum 1551830399);
        ("pk_test", JNum (i + id_start + 1));
        ("genre", JStr "test")].

Definition generate_test_movies (num_movies id_start : Z) : list json :=
  map (fun i => test_movie i id_start) (py_range num_movies).

(** The files [test_add_documents_from_directory] writes, one list of movies
    per file: [add_json_file(test<i>.json, documents_per_file,
    i * documents_per_file)] for [i] in [range(number_of_files)]. *)
Definition directory_movies (number_of_files documents_per_file : Z) : list (list json) :=
  map (fun i => generate_test_movies documents_per_file (i * documents_per_file))
      (py_range number_of_files).

Lemma py_range_nonpos : forall n, (n <= 0)%Z -> py_range n = [].
Proof.
  intros n Hn. unfold py_range. replace (Z.to_nat n) with 0 by lia. reflexivity.
Qed.

Lemma py_range_succ :
  forall n, (0 <= n)%Z -> py_range (n + 1) = (py_range n ++ [n])%list.
Proof.
  intros n Hn. unfold py_range.
  replace (Z.to_nat (n + 1)) with (Z.to_nat n + 1) by lia.
  rewrite seq_app, map_app. simpl. do 2 f_equal. lia.
Qed.

Lemma py_range_In : forall n i, In i (py_range n) <-> (0 <= i < n)%Z.
Proof.
  intros n i. unfold py_range. rewrite in_map_iff. split.
  - intros (k & <- & Hk). apply in_seq in Hk. lia.
  - intros Hi. exists (Z.to_nat i). split; [lia|]. apply in_seq. lia.
Qed.

Lemma NoDup_map_injective {A B} (f : A -> B) :
  forall l, (forall a b, In a l -> In b l -> f a = f b -> a = b) ->
            NoDup l -> NoDup (map f l).
Proof.
  induction l as [|x l IH]; intros Hinj Hnd; simpl.
  - constructor.
  - inversion Hnd as [|? ? Hx Hl]; subst. constructor.
    + intros Hin. apply in_map_iff in Hin as (y & Hy & Hyl).
      assert (y = x) by (apply Hinj; simpl; auto). subst. contradiction.
    + apply IH; [|exact Hl]. intros a b Ha Hb. apply Hinj; simpl; auto.
Qed.

Lemma py_range_NoDup : forall n, NoDup (py_range n).
Proof.
  intros n. unfold py_range. apply NoDup_map_injective.
  - intros a b _ _ H. lia.
  - apply seq_NoDup.
Qed.

Lemma seq_from : forall len a, seq a len = map (fun k => a + k) (seq 0 len).
Proof.
  induction len as [|len IH]; intros a; simpl.
  - reflexivity.
  - f_equal; [lia|]. rewrite (IH (S a)), (IH 1), map_map.
    apply map_ext. intros k. lia.
Qed.

Lemma generate_test_movies_app :
  forall n m id_start, (0 <= n)%Z -> (0 <= m)%Z ->
    generate_test_movies (n + m) id_start =
    (generate_test_movies n id_start ++ generate_test_movies m (id_start + n))%list.
Proof.
  intros n m id_start Hn Hm. unfold generate_test_movies, py_range.
  replace (Z.to_nat (n + m)) with (Z.to_nat n + Z.to_nat m) by lia.
  rewrite seq_app, !map_app. f_equal. simpl.
  rewrite (seq_from (Z.to_nat m) (Z.to_nat n)), !map_map.
  apply map_ext. intros k. unfold test_movie.
  replace (Z.of_nat (Z.to_nat n + k) + id_start)%Z with (Z.of_nat k + (id_start + n))%Z by lia.
  reflexivity.
Qed.

Lemma generate_test_movies_nonpos :
  forall n id_start, (n <= 0)%Z -> generate_test_movies n id_start = [].
Proof.
  intros n id_start Hn. unfold generate_test_movies. now rewrite py_range_nonpos.
Qed.

Lemma generate_test_movies_ids :
  forall n id_start,
    map (fun movie => subscript movie "id") (generate_test_movies n id_start)
    = map (fun i => Ok (JNum (i + id_start))) (py_range n).
Proof.
  intros n id_start. unfold generate_test_movies. rewrite map_map. reflexivity.
Qed.

(** X1.  Generating [n + m] movies gives what generating [n] and then [m]
    more, starting where the first run stopped, gives; there are [n + m] of
    them, their ids are all different, and each has an id from [id_start] up
    to [id_start + n + m - 1] and a [pk_test] one above its id. *)
Theorem generate_test_movies_in_two_runs :
  forall n m id_start, (0 <= n)%Z -> (0 <= m)%Z ->
    generate_test_movies (n + m) id_start =
    (generate_test_movies n id_start ++ generate_test_movies m (id_start + n))%list /\
    List.length (generate_test_movies (n + m) id_start) = Z.to_nat n + Z.to_nat m /\
    NoDup (map (fun movie => subscript movie "id") (generate_test_movies (n + m) id_start)) /\
    Forall (fun movie =>
              exists i, subscript movie "id" = Ok (JNum i) /\
                        subscript movie "pk_test" = Ok (JNum (i + 1)) /\
                        (id_start <= i < id_start + n + m)%Z)
           (generate_test_movies (n + m) id_start).
Proof.
  intros n m id_start Hn Hm. split; [now apply generate_test_movies_app|].
  split; [|split].
  - unfold generate_test_movies, py_range. rewrite !length_map, length_seq. lia.
  - rewrite generate_test_movies_ids. apply NoDup_map_injective.
    + intros a b _ _ H. injection H as H. lia.
    + apply py_range_NoDup.
  - unfold generate_test_movies. apply Forall_map. apply Forall_forall.
    intros i Hi. apply py_range_In in Hi. exists (i + id_start)%Z.
    repeat split; try reflexivity; lia.
Qed.

(** X2.  The files [test_add_documents_from_directory] writes hold, one after
    the other, the movies [generate_test_movies] gives for
    [number_of_files * documents_per_file] with ids from 0: as many documents
    as the test expects, no id twice. *)
Theorem directory_movies_are_consecutive :
  forall number_of_files documents_per_file,
    (0 <= number_of_files)%Z ->
    List.concat (directory_movies number_of_files documents_per_file)
      = generate_test_movies (number_of_files * documents_per_file) 0 /\
    List.length (List.concat (directory_movies number_of_files documents_per_file))
      = Z.to_nat (number_of_files * documents_per_file) /\
    NoDup (map (fun movie => subscript movie "id")
               (List.concat (directory_movies number_of_files documents_per_file))).
Proof.
  intros files per Hfiles.
  assert (Hcat : List.concat (directory_movies files per)
                 = generate_test_movies (files * per) 0).
  { rewrite <- (Z2Nat.id files Hfiles). generalize (Z.to_nat files) as k.
    clear Hfiles. induction k as [|k IH].
    - reflexivity.
    - unfold directory_movies in *.
      replace (Z.of_nat (S k)) with (Z.of_nat k + 1)%Z by lia.
      rewrite py_range_succ, map_app, concat_app, IH by lia. simpl.
      rewrite app_nil_r.
      destruct (Z_le_gt_dec 0 per) as [Hper | Hper].
      + replace ((Z.of_nat k + 1) * per)%Z with (Z.of_nat k * per + per)%Z by lia.
        rewrite generate_test_movies_app by nia. reflexivity.
      + rewrite !generate_test_movies_nonpos by nia. reflexivity. }
  rewrite Hcat. split; [reflexivity|]. split.
  - unfold generate_test_movies, py_range. now rewrite !length_map, length_seq.
  - rewrite generate_test_movies_ids. apply NoDup_map_injective.
    + intros a b _ _ H. injection H as H. lia.
    + apply py_range_NoDup.
Qed.

(** ** Python values, again *)

Lemma prefix_spec :
  forall p s, String.prefix p s = true <-> exists rest, s = p ++ rest.
Proof.
  induction p as [|a p IH]; intros s; simpl.
  - split; [intros _; exists s; reflexivity | intros _; destruct s; reflexivity].
  - destruct s as [|b s]; simpl.
    + split; [discriminate | intros [rest H]; discriminate].
    + destruct (Ascii.ascii_dec a b) as [-> | Hab].
      * rewrite IH. split; intros [rest H]; exists rest; congruence.
      * split; [discriminate | intros [rest H]; congruence].
Qed.

Lemma contains_eq :
  forall needle haystack,
    contains needle haystack =
    if String.prefix needle haystack then true
    else match haystack with
         | EmptyString => false
         | String _ rest => contains needle rest
         end.
Proof. intros needle [|c rest]; reflexivity. Qed.

(** [contains] is Python's [in] on strings: the needle occurs somewhere. *)
Lemma contains_spec :
  forall needle haystack,
    contains needle haystack = true <->
    exists before after, haystack = before ++ needle ++ after.
Proof.
  intros needle. induction haystack as [|c rest IH]; rewrite contains_eq.
  - destruct (String.prefix needle "") eqn:Hp.
    + apply prefix_spec in Hp as [after H]. split; [|reflexivity].
      intros _. exists "", after. exact H.
    + split; [discriminate|]. intros (before & after & H).
      destruct before; simpl in H; [|discriminate].
      assert (String.prefix needle "" = true) by (apply prefix_spec; eauto).
      congruence.
  - destruct (String.prefix needle (String c rest)) eqn:Hp.
    + apply prefix_spec in Hp as [after H]. split; [|reflexivity].
      intros _. exists "", after. exact H.
    + rewrite IH. split.
      * intros (before & after & ->). exists (String c before), after. reflexivity.
      * intros (before & after & H). destruct before as [|b before]; simpl in H.
        -- assert (String.prefix needle (String c rest) = true)
             by (apply prefix_spec; eauto).
           congruence.
        -- injection H as _ ->. eauto.
Qed.

Lemma comprehension_Forall2 {A B} (f : A -> outcome B) :
  forall xs ys, comprehension f xs = Ok ys <-> Forall2 (fun x y => f x = Ok y) xs ys.
Proof.
  induction xs as [|x xs IH]; intros ys; simpl.
  - split.
    + intros H. injection H as <-. constructor.
    + intros H. inversion H. reflexivity.
  - split.
    + intros H. destruct (f x) as [y| |] eqn:Hy; simpl in H; try discriminate.
      destruct (comprehension f xs) as [l| |] eqn:Hl; simpl in H; try discriminate.
      injection H as <-. constructor; [exact Hy | now apply IH].
    + intros H. inversion H as [|? y ? l Hy Hl]; subst.
      rewrite Hy. simpl. apply IH in Hl. rewrite Hl. reflexivity.
Qed.

Lemma find_first {A} (p : A -> bool) :
  forall before x after,
    Forall (fun y => p y = false) before -> p x = true ->
    find p (before ++ x :: after) = Some x.
Proof.
  induction before as [|y before IH]; intros x after Hb Hx; simpl.
  - now rewrite Hx.
  - inversion Hb as [|? ? Hy Hrest]; subst. rewrite Hy. now apply IH.
Qed.

(** ** client.py: the remaining methods *)

(** The models built from what the server sent, and what a [KeyCreate] or a
    [KeyUpdate] turns into through [json.loads(key.json(by_alias=True))]. *)
Variable DumpInfo ClientStats Version Health KeyCreate KeyUpdate : Type.
Variable DumpInfo_init : json -> outcome DumpInfo.
Variable ClientStats_init : json -> outcome ClientStats.
Variable Version_init : json -> outcome Version.
Variable Health_init : json -> outcome Health.
Variable KeyCreate_json : KeyCreate -> json.
Variable KeyUpdate_json : KeyUpdate -> json.
Variable KeyUpdate_key : KeyUpdate -> string.

Definition http_post (c : AsyncClient) (path : string) (body : content) : M Response :=
  _send_request c POST path body.

Definition http_patch (c : AsyncClient) (path : string) (body : content) : M Response :=
  _send_request c PATCH path body.

Definition create_dump (self : Client) : M DumpInfo :=
  response <- http_post (http_client self) "dumps" NoContent ;;
  lift (DumpInfo_init (response_json response)).

Definition get_all_stats (self : Client) : M ClientStats :=
  response <- http_get (http_client self) "stats" ;;
  lift (ClientStats_init (response_json response)).

Definition get_dump_status (self : Client) (uid : string) : M DumpInfo :=
  let url := "dumps/" ++ uid ++ "/status" in
  response <- http_get (http_client self) url ;;
  lift (DumpInfo_init (response_json response)).

Definition create_key (self : Client) (k : KeyCreate) : M Key :=
  response <- http_post (http_client self) "keys" (JsonContent (KeyCreate_json k)) ;;
  lift (Key_init (response_json response)).

Definition delete_key (self : Client) (k : string) : M Z :=
  response <- http_delete (http_client self) ("keys/" ++ k) ;;
  ret (status_code response).

Definition get_key (self : Client) (k : string) : M Key :=
  response <- http_get (http_client self) ("keys/" ++ k) ;;
  lift (Key_init (response_json response)).

Definition update_key (self : Client) (k : KeyUpdate) : M Key :=
  response <- http_patch (http_client self) ("keys/" ++ KeyUpdate_key k)
                         (JsonContent (KeyUpdate_json k)) ;;
  lift (Key_init (response_json response)).

Definition get_version (self : Client) : M Version :=
  response <- http_get (http_client self) "version" ;;
  lift (Version_init (response_json response)).

Definition health (self : Client) : M Health :=
  response <- http_get (http_client self) "health" ;;
  lift (Health_init (response_json response)).

(** What awaiting [Index(http_client, uid).fetch_info()] or
    [Index.create(http_client, uid, primary_key)] ends with: the index, a
    [MeiliSearchApiError] with the [code] the server gave, or another
    exception. *)
Inductive index_outcome : Type :=
| Fetched (index : Index)
| ApiFailure (status : Z) (code : string)
| Failure (e : error).

Variable Index_fetch_info : AsyncClient -> string -> World -> World * index_outcome.
Variable Index_create :
  AsyncClient -> string -> option string -> World -> World * index_outcome.

Definition get_index (self : Client) (uid : string) : World -> World * index_outcome :=
  Index_fetch_info (http_client self) uid.

Definition create_index (self : Client) (uid : string) (primary_key : option string)
  : World -> World * index_outcome :=
  Index_create (http_client self) uid primary_key.

Definition get_or_create_index (self : Client) (uid : string) (primary_key : option string)
  : World -> World * index_outcome :=
  fun w =>
    let (w1, r) := get_index self uid w in
    match r with
    | ApiFailure status code =>
        if negb (contains "index_not_found" code) then (w1, ApiFailure status code)
        else create_index self uid primary_key w1
    | _ => (w1, r)
    end.

(** The methods of the client that talk to the server through its own
    requests, as calls. *)
Inductive client_call : Type :=
| call_create_dump
| call_delete_index_if_exists (fuel : nat) (uid : string)
| call_generate_tenant_token (payload : list (string * json)) (given_key : option Key)
| call_get_indexes
| call_get_all_stats
| call_get_dump_status (uid : string)
| call_create_key (k : KeyCreate)
| call_delete_key (k : string)
| call_get_keys
| call_get_key (k : string)
| call_update_key (k : KeyUpdate)
| call_get_raw_index (uid : string)
| call_get_raw_indexes
| call_get_version
| call_health.

(** The world a call leaves. *)
Definition after (self : Client) (call : client_call) (w : World) : World :=
  match call with
  | call_create_dump => fst (create_dump self w)
  | call_delete_index_if_exists fuel uid => fst (delete_index_if_exists fuel self uid w)
  | call_generate_tenant_token payload given_key =>
      fst (generate_tenant_token self payload given_key w)
  | call_get_indexes => fst (get_indexes self w)
  | call_get_all_stats => fst (get_all_stats self w)
  | call_get_dump_status uid => fst (get_dump_status self uid w)
  | call_create_key k => fst (create_key self k w)
  | call_delete_key k => fst (delete_key self k w)
  | call_get_keys => fst (get_keys self w)
  | call_get_key k => fst (get_key self k w)
  | call_update_key k => fst (update_key self k w)
  | call_get_raw_index uid => fst (get_raw_index self uid w)
  | call_get_raw_indexes => fst (get_raw_indexes self w)
  | call_get_version => fst (get_version self w)
  | call_health => fst (health self w)
  end.

(** The one request of the calls that make one: method, path and content. *)
Definition endpoint (call : client_call) : option (http_method * string * content) :=
  match call with
  | call_create_dump => Some (POST, "dumps", NoContent)
  | call_delete_index_if_exists _ _ => None
  | call_generate_tenant_token _ _ => None
  | call_get_indexes => Some (GET, "indexes", NoContent)
  | call_get_all_stats => Some (GET, "stats", NoContent)
  | call_get_dump_status uid => Some (GET, "dumps/" ++ uid ++ "/status", NoContent)
  | call_create_key k => Some (POST, "keys", JsonContent (KeyCreate_json k))
  | call_delete_key k => Some (DELETE, "keys/" ++ k, NoContent)
  | call_get_keys => Some (GET, "keys", NoContent)
  | call_get_key k => Some (GET, "keys/" ++ k, NoContent)
  | call_update_key k =>
      Some (PATCH, "keys/" ++ KeyUpdate_key k, JsonContent (KeyUpdate_json k))
  | call_get_raw_index uid => Some (GET, "indexes/" ++ uid, NoContent)
  | call_get_raw_indexes => Some (GET, "indexes", NoContent)
  | call_get_version => Some (GET, "version", NoContent)
  | call_health => Some (GET, "health", NoContent)
  end.

(** A coroutine that leaves the world as it found it. *)
Definition silent {A} (f : M A) : Prop := forall w, fst (f w) = w.

(** ** What the client sends *)

Lemma silent_ret {A} (a : A) : silent (ret a).
Proof. intros w. reflexivity. Qed.

Lemma silent_raise {A} (e : error) : silent (@raise A e).
Proof. intros w. reflexivity. Qed.

Lemma silent_lift {A} (r : outcome A) : silent (lift r).
Proof. intros w. reflexivity. Qed.

Lemma silent_bind {A B} (f : M A) (k : A -> M B) :
  silent f -> (forall a, silent (k a)) -> silent (bind f k).
Proof.
  intros Hf Hk w. unfold bind. specialize (Hf w).
  destruct (f w) as [w1 [a| |]]; simpl in *; subst; auto. apply Hk.
Qed.

Ltac silence :=
  repeat first
    [ apply silent_ret | apply silent_raise | apply silent_lift
    | apply silent_bind; [|intros ?]
    | match goal with
      | |- silent (if ?b then _ else _) => destruct b
      | |- silent (match ?x with _ => _ end) => destruct x
      end ].

Lemma issued_app :
  forall a b, issued (a ++ b)%list = (issued a ++ issued b)%list.
Proof.
  induction a as [|[t r|t r resp] a IH]; intros b; simpl; [reflexivity| |]; now rewrite IH.
Qed.

Lemma bind_send_request_trace {A} (c : AsyncClient) m path body (k : Response -> M A) :
  (forall response, silent (k response)) ->
  forall w,
    trace (fst (bind (_send_request c m path body) k w)) =
    trace (fst (send c m path body w)).
Proof.
  intros Hk w. unfold bind. rewrite _send_request_spec.
  destruct (is_success _); simpl; [|reflexivity].
  specialize (Hk (snd (send c m path body w)) (fst (send c m path body w))).
  destruct (k _ _) as [w2 r]. simpl in Hk. now subst.
Qed.

Lemma get_raw_index_world :
  forall self uid w,
    trace (fst (get_raw_index self uid w)) =
    trace (fst (send (http_client self) GET ("indexes/" ++ uid) NoContent w)).
Proof.
  intros self uid w. unfold get_raw_index.
  destruct (send (http_client self) GET ("indexes/" ++ uid) NoContent w) as [w1 resp].
  simpl. destruct (status_code resp =? 404)%Z; [reflexivity|].
  unfold bind, lift, ret. destruct (IndexInfo_init (response_json resp)); reflexivity.
Qed.

(** X3.  Every method of the client with an endpoint of its own sends exactly
    one request, to that endpoint and with the base url and headers of the
    client, whatever the server answers and whether or not the answer can be
    read: nothing is sent twice. *)
Theorem one_request_per_call :
  forall self call m path body w,
    endpoint call = Some (m, path, body) ->
    exists t response,
      trace (after self call w) =
      (trace w ++
       [Issued (now w)
               (mkRequest m (base_url (http_client self)) path
                          (headers (http_client self)) body);
        Completed t
               (mkRequest m (base_url (http_client self)) path
                          (headers (http_client self)) body)
               response])%list.
Proof.
  intros self call m path body w Hend.
  assert (Hsend : exists t response,
             trace (fst (send (http_client self) m path body w)) =
             (trace w ++
              [Issued (now w) (mkRequest m (base_url (http_client self)) path
                                         (headers (http_client self)) body);
               Completed t (mkRequest m (base_url (http_client self)) path
                                      (headers (http_client self)) body)
                         response])%list).
  { rewrite send_trace. eauto. }
  destruct Hsend as (t & response & Hsend). exists t, response. rewrite <- Hsend.
  destruct call; cbn [endpoint] in Hend; try discriminate; injection Hend as <- <- <-;
    cbn [after].
  - apply bind_send_request_trace. intros r. silence.
  - apply bind_send_request_trace. intros r. silence.
  - apply bind_send_request_trace. intros r. silence.
  - apply bind_send_request_trace. intros r. silence.
  - apply bind_send_request_trace. intros r. silence.
  - apply bind_send_request_trace. intros r. silence.
  - apply bind_send_request_trace. intros r. silence.
  - apply bind_send_request_trace. intros r. silence.
  - apply bind_send_request_trace. intros r. silence.
  - apply get_raw_index_world.
  - apply bind_send_request_trace. intros r. silence.
  - apply bind_send_request_trace. intros r. silence.
  - apply bind_send_request_trace. intros r. silence.
Qed.


(** ** Answers the server refuses *)

Definition error_of {A} (r : outcome A) : option error :=
  match r with
  | Raise e => Some e
  | _ => None
  end.

(** The exception a call ends with, if it ends with one. *)
Definition raised (self : Client) (call : client_call) (w : World) : option error :=
  match call with
  | call_create_dump => error_of (snd (create_dump self w))
  | call_delete_index_if_exists fuel uid =>
      error_of (snd (delete_index_if_exists fuel self uid w))
  | call_generate_tenant_token payload given_key =>
      error_of (snd (generate_tenant_token self payload given_key w))
  | call_get_indexes => error_of (snd (get_indexes self w))
  | call_get_all_stats => error_of (snd (get_all_stats self w))
  | call_get_dump_status uid => error_of (snd (get_dump_status self uid w))
  | call_create_key k => error_of (snd (create_key self k w))
  | call_delete_key k => error_of (snd (delete_key self k w))
  | call_get_keys => error_of (snd (get_keys self w))
  | call_get_key k => error_of (snd (get_key self k w))
  | call_update_key k => error_of (snd (update_key self k w))
  | call_get_raw_index uid => error_of (snd (get_raw_index self uid w))
  | call_get_raw_indexes => error_of (snd (get_raw_indexes self w))
  | call_get_version => error_of (snd (get_version self w))
  | call_health => error_of (snd (health self w))
  end.

Lemma bind_send_request_refused {A} (c : AsyncClient) m path body (k : Response -> M A) :
  forall w,
    is_success (status_code (snd (send c m path body w))) = false ->
    snd (bind (_send_request c m path body) k w)
    = Raise (MeiliSearchApiError (status_code (snd (send c m path body w)))).
Proof.
  intros w Hno. unfold bind. rewrite _send_request_spec, Hno. reflexivity.
Qed.

Lemma get_raw_index_result :
  forall self uid w,
    snd (get_raw_index self uid w) =
    if (status_code (snd (send (http_client self) GET ("indexes/" ++ uid) NoContent w))
        =? 404)%Z
    then Ok None
    else match IndexInfo_init
                 (response_json
                    (snd (send (http_client self) GET ("indexes/" ++ uid) NoContent w))) with
         | Ok info => Ok (Some info)
         | Raise e => Raise e
         | OutOfFuel => OutOfFuel
         end.
Proof.
  intros self uid w. unfold get_raw_index.
  destruct (send (http_client self) GET ("indexes/" ++ uid) NoContent w) as [w1 resp].
  simpl. destruct (status_code resp =? 404)%Z; [reflexivity|].
  unfold bind, lift, ret. destruct (IndexInfo_init (response_json resp)); reflexivity.
Qed.

Lemma bind_send_request_refused_error {A} (c : AsyncClient) m path body
  (k : Response -> M A) :
  forall w,
    is_success (status_code (snd (send c m path body w))) = false ->
    error_of (snd (bind (_send_request c m path body) k w))
    = Some (MeiliSearchApiError (status_code (snd (send c m path body w)))).
Proof.
  intros w Hno. now rewrite bind_send_request_refused.
Qed.

(** X5.  When the one request of a method is answered with a status outside
    2xx, the method raises [MeiliSearchApiError] with that status and builds
    nothing from the body; [get_raw_index] is the exception: it asks the
    http client itself, so it returns [None] on 404 and on any other status
    hands the body to [IndexInfo], returning or raising what that gives. *)
Theorem refused_answers_raise :
  forall self call m path body w,
    endpoint call = Some (m, path, body) ->
    is_success (status_code (snd (send (http_client self) m path body w))) = false ->
    match call with
    | call_get_raw_index uid =>
        snd (get_raw_index self uid w) =
        if (status_code (snd (send (http_client self) m path body w)) =? 404)%Z
        then Ok None
        else match IndexInfo_init
                     (response_json (snd (send (http_client self) m path body w))) with
             | Ok info => Ok (Some info)
             | Raise e => Raise e
             | OutOfFuel => OutOfFuel
             end
    | _ =>
        raised self call w =
        Some (MeiliSearchApiError
                (status_code (snd (send (http_client self) m path body w))))
    end.
Proof.
  intros self call m path body w Hend Hno.
  destruct call; cbn [endpoint] in Hend; try discriminate; injection Hend as <- <- <-;
    cbn [raised]; try (apply bind_send_request_refused_error; exact Hno).
  clear Hno. apply get_raw_index_result.
Qed.

(** X6.  [delete_key] returns a status code only when the server accepted
    the [DELETE] of [keys/<key>]: the code returned is the status of the
    answer and lies in 200..299; a 404 for an unknown key is raised as
    [MeiliSearchApiError], not returned. *)
Theorem delete_key_returns_success_codes :
  forall self k w code,
    snd (delete_key self k w) = Ok code ->
    code = status_code (snd (send (http_client self) DELETE ("keys/" ++ k) NoContent w)) /\
    (200 <= code < 300)%Z.
Proof.
  intros self k w code H. unfold delete_key, http_delete, bind, ret in H.
  rewrite _send_request_spec in H.
  set (resp := snd (send (http_client self) DELETE ("keys/" ++ k) NoContent w)) in *.
  destruct (is_success (status_code resp)) eqn:Hok; simpl in H; [|discriminate].
  injection H as <-. split; [reflexivity|].
  unfold is_success in Hok. apply andb_true_iff in Hok as [H1 H2].
  apply Z.leb_le in H1. apply Z.ltb_lt in H2. lia.
Qed.

(** ** Listings *)

Lemma comprehension_all_ok {A B} (f : A -> outcome B) :
  forall xs ys, comprehension f xs = Ok ys -> Forall (fun x => is_ok (f x) = true) xs.
Proof.
  intros xs ys H. apply comprehension_Forall2 in H.
  induction H as [|x y xs ys Hx _ IH]; constructor; auto. now rewrite Hx.
Qed.

Lemma index_of_item_fields :
  forall c x, is_ok (index_of_item c x) = true ->
    exists fields, x = JObj fields /\
      Forall (fun name => dict_get name fields <> None)
             ["uid"; "primaryKey"; "createdAt"; "updatedAt"].
Proof.
  intros c x H. unfold index_of_item in H.
  destruct x as [ |b|n|s|l|fields]; try discriminate.
  exists fields. split; [reflexivity|]. unfold subscript in H.
  destruct (dict_get "uid" fields) eqn:H1; [|discriminate].
  destruct (dict_get "primaryKey" fields) eqn:H2; [|discriminate].
  destruct (dict_get "createdAt" fields) eqn:H3; [|discriminate].
  destruct (dict_get "updatedAt" fields) eqn:H4; [|discriminate].
  repeat (constructor; [congruence|]). constructor.
Qed.

Lemma comprehension_first_raise {A B} (f : A -> outcome B) :
  forall pre x post e,
    Forall (fun y => is_ok (f y) = true) pre ->
    f x = Raise e ->
    comprehension f (pre ++ x :: post) = Raise e.
Proof.
  induction pre as [|y pre IH]; intros x post e Hpre Hx; simpl.
  - now rewrite Hx.
  - inversion Hpre as [|? ? Hy Hpre']; subst.
    destruct (f y); try discriminate. simpl.
    now rewrite (IH x post e Hpre' Hx).
Qed.

Lemma comprehension_raises {A B} (f : A -> outcome B) :
  (forall x, f x <> OutOfFuel) ->
  forall xs,
    Exists (fun x => is_ok (f x) = false) xs -> exists e, comprehension f xs = Raise e.
Proof.
  intros Hf. induction xs as [|x xs IH]; intros H;
    inversion H as [? ? Hx | ? ? Hxs]; subst; simpl.
  - destruct (f x) as [y|e|] eqn:Hfx;
      [discriminate | exists e; reflexivity | now destruct (Hf x)].
  - destruct (f x) as [y|e|] eqn:Hfx; simpl;
      [|exists e; reflexivity | now destruct (Hf x)].
    destruct (IH Hxs) as [e ->]. exists e. reflexivity.
Qed.

Lemma index_of_item_ends :
  forall c,
    (forall uid primary_key created_at updated_at,
       Index_init c uid primary_key created_at updated_at <> OutOfFuel) ->
    forall x, index_of_item c x <> OutOfFuel.
Proof.
  intros c Hinit x. unfold index_of_item, subscript.
  destruct x as [ |b|n|s|l|fields]; try discriminate.
  destruct (dict_get "uid" fields); [|discriminate].
  destruct (dict_get "primaryKey" fields); [|discriminate].
  destruct (dict_get "createdAt" fields); [|discriminate].
  destruct (dict_get "updatedAt" fields); [|discriminate].
  apply Hinit.
Qed.

Lemma index_of_item_missing :
  forall c fields,
    Exists (fun name => dict_get name fields = None)
           ["uid"; "primaryKey"; "createdAt"; "updatedAt"] ->
    exists name,
      In name ["uid"; "primaryKey"; "createdAt"; "updatedAt"] /\
      dict_get name fields = None /\
      index_of_item c (JObj fields) = Raise (KeyError name).
Proof.
  intros c fields H. unfold index_of_item, subscript.
  destruct (dict_get "uid" fields) eqn:H1;
    [|exists "uid"; split; [simpl; auto | split; [exact H1 | reflexivity]]].
  destruct (dict_get "primaryKey" fields) eqn:H2;
    [|exists "primaryKey"; split; [simpl; auto | split; [exact H2 | reflexivity]]].
  destruct (dict_get "createdAt" fields) eqn:H3;
    [|exists "createdAt"; split; [simpl; auto | split; [exact H3 | reflexivity]]].
  destruct (dict_get "updatedAt" fields) eqn:H4;
    [|exists "updatedAt"; split; [simpl; auto 6 | split; [exact H4 | reflexivity]]].
  exfalso. repeat (inversion H as [? ? H0 | ? ? H0]; subst; [congruence|]; clear H;
                   rename H0 into H).
  inversion H.
Qed.

Lemma index_of_item_short :
  forall c x,
    (forall fields, x = JObj fields ->
       Exists (fun name => dict_get name fields = None)
              ["uid"; "primaryKey"; "createdAt"; "updatedAt"]) ->
    is_ok (index_of_item c x) = false.
Proof.
  intros c x H. destruct x as [ |b|n|s|l|fields]; try reflexivity.
  destruct (index_of_item_missing c fields (H fields eq_refl)) as (name & _ & _ & ->).
  reflexivity.
Qed.

Lemma get_indexes_of_array :
  forall self w x items,
    is_success (status_code (snd (send (http_client self) GET "indexes" NoContent w)))
      = true ->
    response_json (snd (send (http_client self) GET "indexes" NoContent w))
      = JArr (x :: items) ->
    get_indexes self w =
    (fst (send (http_client self) GET "indexes" NoContent w),
     match comprehension (index_of_item (http_client self)) (x :: items) with
     | Ok l => Ok (Some l)
     | Raise e => Raise e
     | OutOfFuel => OutOfFuel
     end).
Proof.
  intros self w x items Hok Hbody.
  unfold get_indexes, http_get, bind, ret, lift.
  rewrite _send_request_spec, Hok, Hbody. cbn [truthy negb py_iter].
  destruct (comprehension (index_of_item (http_client self)) (x :: items)); reflexivity.
Qed.

(** X7.  [get_indexes] returns a list only when the server answered 2xx with
    a JSON array that is not empty and whose every element is an object with
    the keys "uid", "primaryKey", "createdAt" and "updatedAt"; the list then
    has one [Index] per element, in order.  One element short of a key makes
    the whole call raise: when the elements before it make their [Index], the
    call raises [KeyError] with a key the element lacks, or [TypeError] when
    the element is no object, in the world its one request left; and wherever
    such an element sits in the array, the call raises, [Index] being a
    constructor that returns or raises. *)
Theorem get_indexes_needs_every_field :
  forall self w,
    (forall w1 l,
       get_indexes self w = (w1, Ok (Some l)) ->
       exists items,
         response_json (snd (send (http_client self) GET "indexes" NoContent w))
           = JArr items /\
         is_success (status_code (snd (send (http_client self) GET "indexes" NoContent w)))
           = true /\
         items <> [] /\
         Forall2 (fun x index => index_of_item (http_client self) x = Ok index) items l /\
         Forall (fun x => exists fields, x = JObj fields /\
                   Forall (fun name => dict_get name fields <> None)
                          ["uid"; "primaryKey"; "createdAt"; "updatedAt"]) items) /\
    (forall pre x post,
       is_success (status_code (snd (send (http_client self) GET "indexes" NoContent w)))
         = true ->
       response_json (snd (send (http_client self) GET "indexes" NoContent w))
         = JArr (pre ++ x :: post) ->
       Forall (fun y => is_ok (index_of_item (http_client self) y) = true) pre ->
       match x with
       | JObj fields =>
           Exists (fun name => dict_get name fields = None)
                  ["uid"; "primaryKey"; "createdAt"; "updatedAt"] ->
           exists name,
             In name ["uid"; "primaryKey"; "createdAt"; "updatedAt"] /\
             dict_get name fields = None /\
             get_indexes self w =
             (fst (send (http_client self) GET "indexes" NoContent w),
              Raise (KeyError name))
       | _ =>
           get_indexes self w =
           (fst (send (http_client self) GET "indexes" NoContent w), Raise TypeError)
       end) /\
    (forall items,
       (forall uid primary_key created_at updated_at,
          Index_init (http_client self) uid primary_key created_at updated_at
          <> OutOfFuel) ->
       is_success (status_code (snd (send (http_client self) GET "indexes" NoContent w)))
         = true ->
       response_json (snd (send (http_client self) GET "indexes" NoContent w))
         = JArr items ->
       Exists (fun x => forall fields, x = JObj fields ->
                 Exists (fun name => dict_get name fields = None)
                        ["uid"; "primaryKey"; "createdAt"; "updatedAt"]) items ->
       exists e,
         get_indexes self w =
         (fst (send (http_client self) GET "indexes" NoContent w), Raise e)).
Proof.
  intros self w. split; [|split].
  - intros w1 l H.
    unfold get_indexes, http_get, bind, ret, lift in H.
    rewrite _send_request_spec in H.
    destruct (is_success _) eqn:Hok; [|discriminate].
    set (body := response_json (snd (send (http_client self) GET "indexes" NoContent w)))
      in *.
    destruct (truthy body) eqn:Ht; simpl in H; [|discriminate].
    destruct (py_iter body) as [items| |] eqn:Hi; simpl in H; try discriminate.
    destruct (comprehension (index_of_item (http_client self)) items) as [l'| |] eqn:Hc;
      simpl in H; try discriminate.
    injection H as _ <-.
    pose proof (comprehension_all_ok _ _ _ Hc) as Hall.
    assert (Hfields : Forall (fun x => exists fields, x = JObj fields /\
                        Forall (fun name => dict_get name fields <> None)
                               ["uid"; "primaryKey"; "createdAt"; "updatedAt"]) items).
    { eapply Forall_impl; [|exact Hall]. intros x. apply index_of_item_fields. }
    pose proof (truthy_py_iter_nonempty _ _ Ht Hi) as Hne.
    exists items. split; [|split; [reflexivity|split; [exact Hne|split; [|exact Hfields]]]].
    + destruct body as [ |b|n|s|arr|kv]; simpl in Hi; try discriminate.
      * injection Hi as <-. destruct s as [|a s]; [discriminate|].
        simpl in Hfields. inversion Hfields as [|? ? (fields & Hx & _) _]. discriminate.
      * injection Hi as <-. reflexivity.
      * injection Hi as <-. destruct kv as [|[k v] kv]; [discriminate|].
        simpl in Hfields. inversion Hfields as [|? ? (fields & Hx & _) _]. discriminate.
    + now apply comprehension_Forall2.
  - intros pre x post Hok Hbody Hpre.
    assert (Hraise : forall e, index_of_item (http_client self) x = Raise e ->
              get_indexes self w =
              (fst (send (http_client self) GET "indexes" NoContent w), Raise e)).
    { intros e He.
      destruct (pre ++ x :: post)%list as [|y ys] eqn:Hitems;
        [destruct pre; discriminate|].
      rewrite (get_indexes_of_array self w y ys Hok Hbody), <- Hitems.
      now rewrite (comprehension_first_raise _ pre x post e Hpre He). }
    destruct x as [ |b|n|s|l|fields]; try (apply Hraise; reflexivity).
    intros Hmiss.
    destruct (index_of_item_missing (http_client self) fields Hmiss)
      as (name & Hin & Hnone & He).
    exists name. split; [exact Hin|]. split; [exact Hnone|]. apply Hraise. exact He.
  - intros items Hinit Hok Hbody Hex.
    destruct items as [|y ys]; [inversion Hex|].
    rewrite (get_indexes_of_array self w y ys Hok Hbody).
    destruct (comprehension_raises (index_of_item (http_client self))
                (index_of_item_ends (http_client self) Hinit) (y :: ys)) as [e ->].
    + eapply Exists_impl; [|exact Hex]. intros x Hx. now apply index_of_item_short.
    + exists e. reflexivity.
Qed.

(** X8.  [get_indexes] and [get_raw_indexes] read the same listing the same
    way: from the same world they leave the same world, and one returns
    [None] exactly when the other does. *)
Theorem listings_agree_on_absence :
  forall self w,
    fst (get_indexes self w) = fst (get_raw_indexes self w) /\
    (snd (get_indexes self w) = Ok None <-> snd (get_raw_indexes self w) = Ok None).
Proof.
  intros self w.
  unfold get_indexes, get_raw_indexes, http_get, bind, ret, lift.
  rewrite _send_request_spec.
  destruct (is_success _) eqn:Hok; simpl.
  - destruct (truthy _); simpl.
    + destruct (py_iter _) as [items| |]; simpl;
        try (repeat split; intros; congruence).
      destruct (comprehension (index_of_item _) items),
               (comprehension IndexInfo_init items); simpl;
        repeat split; intros; congruence.
    + repeat split; intros; congruence.
  - repeat split; intros; congruence.
Qed.

(** ** Keys and tenant tokens *)

(** X9.  [get_keys] returns keys only when the server answered 2xx with an
    object whose "results" can be iterated, and then one [Key] per item, in
    order; an object without "results" makes it raise [KeyError], after its
    one request. *)
Theorem get_keys_reads_results :
  forall self w,
    (forall w1 keys,
       get_keys self w = (w1, Ok keys) ->
       exists fields results items,
         response_json (snd (send (http_client self) GET "keys" NoContent w)) = JObj fields /\
         dict_get "results" fields = Some results /\
         py_iter results = Ok items /\
         Forall2 (fun x k => Key_init x = Ok k) items keys) /\
    (forall fields,
       is_success (status_code (snd (send (http_client self) GET "keys" NoContent w))) = true ->
       response_json (snd (send (http_client self) GET "keys" NoContent w)) = JObj fields ->
       dict_get "results" fields = None ->
       snd (get_keys self w) = Raise (KeyError "results")).
Proof.
  intros self w. split.
  - intros w1 keys H. unfold get_keys, http_get, bind, lift in H.
    rewrite _send_request_spec in H.
    destruct (is_success _); [|discriminate].
    set (body := response_json (snd (send (http_client self) GET "keys" NoContent w))) in *.
    unfold subscript in H. destruct body as [ |b|n|s|arr|fields]; try discriminate.
    destruct (dict_get "results" fields) as [results|] eqn:Hres; [|discriminate].
    destruct (py_iter results) as [items| |] eqn:Hi; try discriminate.
    destruct (comprehension Key_init items) as [l| |] eqn:Hc; try discriminate.
    injection H as _ <-. exists fields, results, items.
    repeat split; auto. now apply comprehension_Forall2.
  - intros fields Hok Hbody Hnone. unfold get_keys, http_get, bind, lift.
    rewrite _send_request_spec, Hok. simpl. rewrite Hbody. simpl. rewrite Hnone.
    reflexivity.
Qed.

Lemma json_in_JStr :
  forall name names, In name names -> json_in (JStr name) names = true.
Proof.
  intros name names Hin. simpl. apply existsb_exists. exists name.
  split; [exact Hin | apply String.eqb_refl].
Qed.

Lemma json_in_JStr_not :
  forall name names, ~ In name names -> json_in (JStr name) names = false.
Proof.
  intros name names Hnot. simpl. destruct (existsb _ names) eqn:He; [|reflexivity].
  apply existsb_exists in He as (x & Hx & Heq). apply String.eqb_eq in Heq. subst.
  contradiction.
Qed.

Lemma check_restriction_names :
  forall payload jk names,
    dict_get "indexes" payload = Some (JArr (map JStr names)) ->
    incl names (indexes jk) ->
    check_restriction payload jk = Ok tt.
Proof.
  intros payload jk names Hget Hincl. unfold check_restriction. rewrite Hget.
  destruct (truthy (JArr (map JStr names))); [|reflexivity].
  cbn [py_iter bind_outcome].
  replace (forallb _ (map JStr names)) with true; [reflexivity|].
  symmetry. apply forallb_forall. intros x Hx.
  apply in_map_iff in Hx as (name & <- & Hname). apply json_in_JStr. now apply Hincl.
Qed.

(** X10.  With a key whose actions are exactly ["search"],
    [generate_tenant_token] returns the payload signed with that key whenever
    the payload has no "indexes" or lists only names among the indexes of the
    key; it does so without sending anything. *)
Theorem generate_tenant_token_signs_valid_payloads :
  forall self payload k w,
    actions k = ["search"] ->
    (dict_get "indexes" payload = None \/
     exists names, dict_get "indexes" payload = Some (JArr (map JStr names)) /\
                   incl names (indexes k)) ->
    generate_tenant_token self payload (Some k) w = (w, Ok (jwt_encode payload (key k))).
Proof.
  intros self payload k w Hact Hidx.
  unfold generate_tenant_token, find_jwt_key, bind, ret, raise, lift.
  rewrite Hact. simpl.
  assert (Hchk : check_restriction payload k = Ok tt).
  { destruct Hidx as [Hnone | (names & Hget & Hincl)].
    - unfold check_restriction. now rewrite Hnone.
    - eapply check_restriction_names; eauto. }
  rewrite Hchk. reflexivity.
Qed.

(** X11.  With a key, [generate_tenant_token] never talks to the server,
    whatever it returns or raises; without one it sends exactly one request,
    the [GET] of [keys]. *)
Theorem generate_tenant_token_requests :
  forall self payload given_key w,
    match given_key with
    | Some _ => fst (generate_tenant_token self payload given_key w) = w
    | None =>
        issued (new_events w (fst (generate_tenant_token self payload given_key w)))
        = [mkRequest GET (base_url (http_client self)) "keys"
                     (headers (http_client self)) NoContent]
    end.
Proof.
  intros self payload [k|] w.
  - unfold generate_tenant_token, find_jwt_key.
    assert (Hs : silent (jwt_key <-
                           (if negb (list_string_eqb (actions k) ["search"])
                            then raise InvalidKeyError else ret (Some k)) ;;
                         match jwt_key with
                         | Some jk => _ <- lift (check_restriction payload jk) ;;
                                      ret (jwt_encode payload (key jk))
                         | None => raise KeyNotFoundError
                         end)) by silence.
    apply Hs.
  - assert (Ht : trace (fst (generate_tenant_token self payload None w)) =
                 trace (fst (send (http_client self) GET "keys" NoContent w))).
    { unfold generate_tenant_token, find_jwt_key.
      assert (Hg : forall keys : outcome (list Key),
                 silent (jwt_key <- (keys0 <- lift keys ;;
                            ret (find (fun k => contains "Default Search API Key"
                                                         (description k)) keys0)) ;;
                         match jwt_key with
                         | Some jk => _ <- lift (check_restriction payload jk) ;;
                                      ret (jwt_encode payload (key jk))
                         | None => raise KeyNotFoundError
                         end)) by (intros keys; silence).
      unfold get_keys, http_get, bind, lift, ret, raise in *.
      rewrite _send_request_spec. destruct (is_success _); simpl; [|reflexivity].
      destruct (subscript _ "results") as [results| |]; simpl; try reflexivity.
      destruct (py_iter results) as [items| |]; simpl; try reflexivity.
      specialize (Hg (comprehension Key_init items)
                     (fst (send (http_client self) GET "keys" NoContent w))).
      destruct (comprehension Key_init items) as [keys| |]; simpl in *; try reflexivity.
      destruct (find _ keys) as [jk|]; simpl in *; [|reflexivity].
      destruct (check_restriction payload jk); reflexivity. }
    rewrite send_trace in Ht. rewrite (new_events_app _ _ _ Ht). reflexivity.
Qed.

(** X12.  Without a key, [generate_tenant_token] signs with the first key
    retrieved whose description has "Default Search API Key" somewhere in it,
    whatever the keys after it are. *)
Theorem generate_tenant_token_uses_first_default_key :
  forall self payload w w1 earlier k later before after,
    get_keys self w = (w1, Ok (earlier ++ k :: later)%list) ->
    Forall (fun k' => forall a b, description k' <> a ++ "Default Search API Key" ++ b)
           earlier ->
    description k = before ++ "Default Search API Key" ++ after ->
    dict_get "indexes" payload = None ->
    generate_tenant_token self payload None w = (w1, Ok (jwt_encode payload (key k))).
Proof.
  intros self payload w w1 earlier k later before after Hkeys Hearlier Hk Hidx.
  unfold generate_tenant_token, find_jwt_key, bind, ret, lift. rewrite Hkeys.
  rewrite find_first.
  - unfold check_restriction. rewrite Hidx. reflexivity.
  - eapply Forall_impl; [|exact Hearlier]. intros k' Hk'.
    destruct (contains "Default Search API Key" (description k')) eqn:Hc; [|reflexivity].
    apply contains_spec in Hc as (a & b & Hab). now apply Hk' in Hab.
  - apply contains_spec. eauto.
Qed.

(** X13.  The restriction check is plain membership in the list of the key:
    a search key whose indexes are ["*"] refuses every payload whose
    "indexes" names anything but "*" itself. *)
Theorem generate_tenant_token_wildcard_key_refuses_names :
  forall self payload k items name w,
    actions k = ["search"] ->
    indexes k = ["*"] ->
    dict_get "indexes" payload = Some (JArr items) ->
    In (JStr name) items ->
    name <> "*" ->
    generate_tenant_token self payload (Some k) w = (w, Raise InvalidRestriction).
Proof.
  intros self payload k items name w Hact Hidx Hget Hin Hname.
  unfold generate_tenant_token, find_jwt_key, bind, ret, raise, lift.
  rewrite Hact. simpl.
  rewrite (check_restriction_refuses payload k items (JStr name) Hget Hin);
    [reflexivity|].
  apply json_in_JStr_not. rewrite Hidx. simpl. intros [H | []]. congruence.
Qed.

(** ** Deleting an index *)

Lemma issued_polls :
  forall c url polls,
    issued (flat_map (poll_events c url) polls)
    = repeat (poll_request c url) (List.length polls).
Proof.
  intros c url. induction polls as [|p polls IH]; simpl; [reflexivity|].
  now rewrite IH.
Qed.

(** X14.  With a positive default polling interval, requests that take no
    negative time and fuel above the default timeout, [delete_index_if_exists]
    ends; what it sends is the [DELETE] of [indexes/<uid>] and after it only
    fetches of one task, the one the answer names; when the [DELETE] is
    answered outside 2xx it raises [MeiliSearchApiError] with that status and
    fetches nothing, and when it returns a boolean it has fetched the task at
    least once. *)
Theorem delete_index_if_exists_requests :
  forall fuel self uid w,
    (0 < default_interval_in_ms)%Z ->
    (forall s r, 0 <= rtt s r)%Z ->
    (Z.to_nat default_timeout_in_ms < fuel)%nat ->
    exists n path,
      issued (new_events w (fst (delete_index_if_exists fuel self uid w))) =
        mkRequest DELETE (base_url (http_client self)) ("indexes/" ++ uid)
                  (headers (http_client self)) NoContent
        :: repeat (poll_request (http_client self) path) n /\
      snd (delete_index_if_exists fuel self uid w) <> OutOfFuel /\
      (forall task_id,
         subscript (response_json
                      (snd (send (http_client self) DELETE ("indexes/" ++ uid) NoContent w)))
                   "uid" = Ok task_id ->
         0 < n -> path = "tasks/" ++ py_format task_id) /\
      (is_success (status_code
                     (snd (send (http_client self) DELETE ("indexes/" ++ uid) NoContent w)))
         = false ->
       n = 0 /\
       snd (delete_index_if_exists fuel self uid w) =
       Raise (MeiliSearchApiError
                (status_code
                   (snd (send (http_client self) DELETE ("indexes/" ++ uid) NoContent w))))) /\
      (forall b, snd (delete_index_if_exists fuel self uid w) = Ok b -> 0 < n).
Proof.
  intros fuel self uid w Hint Hrtt Hfuel.
  unfold delete_index_if_exists, http_delete, bind, lift, ret.
  rewrite _send_request_spec.
  pose proof (send_trace (http_client self) DELETE ("indexes/" ++ uid) NoContent w) as Hdel.
  destruct (send (http_client self) DELETE ("indexes/" ++ uid) NoContent w)
    as [w1 response]. cbn [fst snd] in *.
  destruct (is_success (status_code response)) eqn:Hok.
  - destruct (subscript (response_json response) "uid") as [task_id|e|] eqn:Hsub.
    + unfold wait_for_task.
      destruct (poll_task_spec terminal_statuses (http_client self)
                  ("tasks/" ++ py_format task_id) (now w1)
                  default_timeout_in_ms default_interval_in_ms Hint Hrtt fuel w1)
        as [polls (Ht & _ & _ & Hres)]; [lia|].
      destruct (poll_task terminal_statuses fuel (http_client self)
                  ("tasks/" ++ py_format task_id) (now w1)
                  default_timeout_in_ms default_interval_in_ms w1) as [w2 r].
      cbn [fst snd] in *.
      assert (Hev : forall w' : World, trace w' = trace w2 ->
                issued (new_events w w') =
                mkRequest DELETE (base_url (http_client self)) ("indexes/" ++ uid)
                          (headers (http_client self)) NoContent
                :: repeat (poll_request (http_client self)
                                        ("tasks/" ++ py_format task_id))
                          (List.length polls)).
      { intros w' Hw'. rewrite (new_events_app w w' _
          (eq_trans Hw' (eq_trans Ht (eq_trans (f_equal (fun t => (t ++ _)%list) Hdel)
                                               (eq_sym (app_assoc _ _ _)))))).
        rewrite issued_app, issued_polls. reflexivity. }
      exists (List.length polls), ("tasks/" ++ py_format task_id).
      destruct r as [st|e|].
      * destruct Hres as (pre & p & -> & _).
        destruct (String.eqb (status st) "succeeded"); cbn [fst snd];
          (split; [apply Hev; reflexivity|]); (split; [discriminate|]);
          (split; [intros ? H _; congruence|]); (split; [discriminate|]);
          intros _ _; rewrite length_app; simpl; lia.
      * cbn [fst snd]. split; [apply Hev; reflexivity|]. split; [discriminate|].
        split; [intros ? H _; congruence|]. split; discriminate.
      * contradiction.
    + exists 0, "". cbn [fst snd]. rewrite (new_events_app _ _ _ Hdel).
      split; [reflexivity|]. split; [discriminate|].
      split; [intros ? _ H; inversion H|]. split; discriminate.
    + exists 0, "". cbn [fst snd]. rewrite (new_events_app _ _ _ Hdel).
      split; [reflexivity|]. split.
      * intros _. destruct (response_json response); simpl in Hsub; try discriminate.
        destruct (dict_get "uid" fields); discriminate.
      * split; [intros ? _ H; inversion H|]. split; discriminate.
  - exists 0, "". cbn [fst snd]. rewrite (new_events_app _ _ _ Hdel).
    split; [reflexivity|]. split; [discriminate|].
    split; [intros ? _ H; inversion H|]. split; [auto | discriminate].
Qed.

(** X15.  [delete_index_if_exists] returns [False] only when the task of the
    deletion was seen to end as "failed".  What else can go wrong raises
    instead, and never returns a boolean: a refused [DELETE] raises
    [MeiliSearchApiError] with the status of the answer; an accepted answer
    without "uid" raises [KeyError] (or [TypeError] when it is no object),
    nothing more being sent; and a wait that raises, be it the timeout error
    or the error of a refused fetch, raises the same from the call. *)
Theorem delete_index_if_exists_false_means_failed :
  forall fuel self uid w,
    (forall w2,
       delete_index_if_exists fuel self uid w = (w2, Ok false) ->
       exists w1 response task_id st,
         _send_request (http_client self) DELETE ("indexes/" ++ uid) NoContent w
           = (w1, Ok response) /\
         subscript (response_json response) "uid" = Ok task_id /\
         wait_for_task fuel (http_client self) task_id
                       default_timeout_in_ms default_interval_in_ms w1 = (w2, Ok st) /\
         status st = "failed") /\
    (is_success (status_code
                   (snd (send (http_client self) DELETE ("indexes/" ++ uid) NoContent w)))
       = false ->
     delete_index_if_exists fuel self uid w =
     (fst (send (http_client self) DELETE ("indexes/" ++ uid) NoContent w),
      Raise (MeiliSearchApiError
               (status_code
                  (snd (send (http_client self) DELETE ("indexes/" ++ uid) NoContent w)))))) /\
    (forall w1 response,
       _send_request (http_client self) DELETE ("indexes/" ++ uid) NoContent w
         = (w1, Ok response) ->
       (forall task_id, subscript (response_json response) "uid" <> Ok task_id) ->
       delete_index_if_exists fuel self uid w =
       (w1, Raise (match response_json response with
                   | JObj _ => KeyError "uid"
                   | _ => TypeError
                   end))) /\
    (forall w1 response task_id w2 e,
       _send_request (http_client self) DELETE ("indexes/" ++ uid) NoContent w
         = (w1, Ok response) ->
       subscript (response_json response) "uid" = Ok task_id ->
       wait_for_task fuel (http_client self) task_id
                     default_timeout_in_ms default_interval_in_ms w1 = (w2, Raise e) ->
       delete_index_if_exists fuel self uid w = (w2, Raise e)).
Proof.
  intros fuel self uid w. split; [|split; [|split]].
  - intros w2 H.
    destruct (delete_index_if_exists_returns_after_wait fuel self uid w w2 false H)
      as (w1 & response & task_id & st & Hdel & Hsub & Hwait & Hb).
    exists w1, response, task_id, st. repeat split; auto.
    assert (Hterm : is_terminal (status st) = true).
    { unfold wait_for_task in Hwait. eapply poll_task_terminal. rewrite Hwait. reflexivity. }
    apply is_terminal_spec in Hterm as [Hs | Hf]; [|exact Hf].
    rewrite Hs in Hb. discriminate.
  - intros Hno. unfold delete_index_if_exists, http_delete, bind.
    rewrite _send_request_spec, Hno. reflexivity.
  - intros w1 response Hdel Hsub.
    unfold delete_index_if_exists, http_delete, bind, lift. rewrite Hdel.
    unfold subscript in *.
    destruct (response_json response) as [ |b|n|s|l|fields]; try reflexivity.
    destruct (dict_get "uid" fields) as [v|]; [|reflexivity].
    now destruct (Hsub v).
  - intros w1 response task_id w2 e Hdel Hsub Hwait.
    unfold delete_index_if_exists, http_delete, bind, lift. rewrite Hdel, Hsub, Hwait.
    reflexivity.
Qed.

(** ** Getting or creating an index *)

(** X16.  [get_or_create_index] creates the index only when fetching it
    failed with an api error whose code has "index_not_found" in it, and then
    from the world the fetch left; an index that is found is returned as it
    is, and any other failure of the fetch is raised again as it is, nothing
    being created. *)
Theorem get_or_create_index_creates_only_when_not_found :
  forall self uid primary_key w,
    match snd (get_index self uid w) with
    | ApiFailure status code =>
        ((exists a b, code = a ++ "index_not_found" ++ b) ->
         get_or_create_index self uid primary_key w
         = create_index self uid primary_key (fst (get_index self uid w))) /\
        ((forall a b, code <> a ++ "index_not_found" ++ b) ->
         get_or_create_index self uid primary_key w = get_index self uid w)
    | _ => get_or_create_index self uid primary_key w = get_index self uid w
    end.
Proof.
  intros self uid primary_key w. unfold get_or_create_index.
  destruct (get_index self uid w) as [w1 [index|status code|e]]; cbn [fst snd];
    try reflexivity.
  destruct (contains "index_not_found" code) eqn:Hc; cbn [negb].
  - split; [reflexivity|]. intros Hnot.
    apply contains_spec in Hc as (a & b & Hab). now apply Hnot in Hab.
  - split; [|reflexivity]. intros Hex.
    apply (proj2 (contains_spec "index_not_found" code)) in Hex. congruence.
Qed.

End Meili.

(** * The client against a small server *)

(** A server that counts the requests it has answered: it accepts everything
    with 202 and reports every task as processing at first and failed from
    its third answer on, as when the index to delete does not exist. *)
Definition demo_task_status (n : nat) : string :=
  if (n <? 2)%nat then "processing" else "failed".

Definition demo_serve (n : nat) (r : Request) : nat * Response :=
  (S n, mkResponse 202 (JObj [("uid", JNum (Z.of_nat n));
                              ("status", JStr (demo_task_status n))])).

(** A server without any index. *)
Definition empty_serve (n : nat) (r : Request) : nat * Response :=
  (S n, mkResponse 200 (JArr [])).

Definition demo_rtt (n : nat) (r : Request) : Z := 10.

Definition demo_format (j : json) : string :=
  match j with
  | JStr s => s
  | JNum n => if (n =? 0)%Z then "0" else "1"
  | _ => "None"
  end.

Definition demo_TaskStatus_of (j : json) : TaskStatus :=
  match j with
  | JObj fields =>
      mkTaskStatus
        (match dict_get "uid" fields with Some u => u | None => JNull end)
        (match dict_get "status" fields with Some (JStr s) => s | _ => "" end)
  | _ => mkTaskStatus JNull ""
  end.

Definition demo_doc_size (doc : json) : nat :=
  match doc with
  | JObj fields => 2 + 20 * List.length fields
  | JStr s => 2 + String.length s
  | _ => 4
  end.

Definition demo_Key_init (j : json) : outcome Key :=
  match j with
  | JObj fields =>
      match dict_get "description" fields, dict_get "key" fields with
      | Some (JStr d), Some (JStr k) => Ok (mkKey d k ["search"] ["*"])
      | _, _ => Raise ValidationError
      end
  | _ => Raise TypeError
  end.

Definition demo_jwt_encode (payload : list (string * json)) (secret : string) : string :=
  "jwt." ++ secret.

Definition demo_load_file (path : string) : outcome (list json) := Ok [].

Definition demo_client : Client :=
  Client_init "http://localhost:7700" (Some "masterKey") None.

Definition demo_index : AsyncClient * string := (http_client demo_client, "movies").

Definition demo_world : World nat := mkWorld nat 0 0 [].

Definition demo_update_url (index : AsyncClient * string) (update_id : json) : string :=
  "indexes/" ++ snd index ++ "/updates/" ++ demo_format update_id.

Definition demo_movie (i : Z) : json :=
  JObj [("id", JNum i); ("title", JStr "test"); ("genre", JStr "test")].

Definition demo_movies : list json :=
  [demo_movie 0; demo_movie 1; demo_movie 2; demo_movie 3; demo_movie 4].

Definition admin_key : Key :=
  mkKey "Default Admin API Key" "abc123" ["*"] ["*"].

(** ** Runs *)

Example suffix_bad : suffix "test.bad" = ".bad".
Proof. reflexivity. Qed.

Example suffix_nested : suffix "/tmp/data.d/movies.tar.json" = ".json".
Proof. reflexivity. Qed.

Example suffix_hidden : suffix "/tmp/data.d/.hidden" = "".
Proof. reflexivity. Qed.

Example suffix_of_directory_dot : suffix "/tmp/data.d/movies" = "".
Proof. reflexivity. Qed.

Example _batch_five_by_two :
  _batch demo_movies 2 =
  Ok [[demo_movie 0; demo_movie 1]; [demo_movie 2; demo_movie 3]; [demo_movie 4]].
Proof. reflexivity. Qed.

Example _batch_five_by_thousand : _batch demo_movies 1000 = Ok [demo_movies].
Proof. reflexivity. Qed.

Example _batch_nothing : _batch [] 3 = Ok [].
Proof. reflexivity. Qed.

Example _batch_five_by_zero : _batch demo_movies 0 = OutOfFuel.
Proof. reflexivity. Qed.

Example auto_batches_five_by_150 :
  _generate_auto_batches demo_doc_size demo_movies 150 =
  Ok [[demo_movie 0; demo_movie 1]; [demo_movie 2; demo_movie 3]; [demo_movie 4]].
Proof. reflexivity. Qed.

Example auto_batches_framing_counts :
  list_sum (map demo_doc_size [demo_movie 0; demo_movie 1]) = 124 /\
  serialized_size demo_doc_size [demo_movie 0; demo_movie 1] = 128 /\
  _generate_auto_batches demo_doc_size demo_movies 125 =
  Ok [[demo_movie 0]; [demo_movie 1]; [demo_movie 2]; [demo_movie 3]; [demo_movie 4]].
Proof. repeat split. Qed.

Example auto_batches_single_document_over_the_bound :
  _generate_auto_batches demo_doc_size [demo_movie 0] 62 = Ok [[demo_movie 0]] /\
  serialized_size demo_doc_size [demo_movie 0] = 64.
Proof. split; reflexivity. Qed.

Example auto_batches_payload_size_error :
  _generate_auto_batches demo_doc_size demo_movies 1 = Raise PayloadTooLarge.
Proof. reflexivity. Qed.

Example delete_missing_index :
  snd (delete_index_if_exists nat demo_serve demo_rtt demo_format demo_TaskStatus_of
         5000 50 200 demo_client "movies" demo_world) = Ok false.
Proof. vm_compute. reflexivity. Qed.

Example wait_times_out :
  snd (wait_for_task nat demo_serve demo_rtt demo_format demo_TaskStatus_of
         200 (http_client demo_client) (JNum 0) 60 50 demo_world)
  = Raise MeiliSearchTimeoutError.
Proof. vm_compute. reflexivity. Qed.

(** ** The theorems at work *)

Lemma in_batches_partitions_witness :
  exists chunks,
    _batch demo_movies 2 = Ok chunks /\
    List.concat chunks = demo_movies /\
    List.length chunks = 3.
Proof.
  destruct (in_batches_partitions nat demo_serve demo_rtt (AsyncClient * string)
              fst snd json (fun j => j) demo_load_file
              POST demo_index demo_movies 2 None demo_world)
    as (chunks & Hb & Hcat & Hlen & _).
  - lia.
  - exists chunks. split; [exact Hb|]. split; [exact Hcat | exact Hlen].
Defined.

Lemma oversized_document_is_refused_witness :
  send_auto_batch nat demo_serve demo_rtt (AsyncClient * string) fst snd json
                  (fun j => j) demo_doc_size POST demo_index demo_movies 1 None demo_world
  = (demo_world, Raise PayloadTooLarge).
Proof.
  apply (proj1 (oversized_document_is_refused nat demo_serve demo_rtt
                  (AsyncClient * string) fst snd json (fun j => j) demo_doc_size
                  POST demo_index demo_movies 1 None demo_world)).
  apply Exists_cons_hd. simpl. lia.
Defined.


Lemma unsupported_extension_is_refused_witness :
  send_from_file nat demo_serve demo_rtt (AsyncClient * string) fst snd json
                 (fun j => j) demo_load_file POST demo_index "test.bad" None demo_world
  = (demo_world, Raise MeiliSearchError).
Proof.
  apply (unsupported_extension_is_refused nat demo_serve demo_rtt
           (AsyncClient * string) fst snd json (fun j => j) demo_doc_size
           (fun _ => true) demo_load_file (fun _ => "id,title")
           POST demo_index "test.bad" 2 1000 None demo_world).
  simpl. intros [H | [H | [H | H]]]; try discriminate H. exact H.
Defined.

Lemma delete_index_if_exists_witness :
  snd (delete_index_if_exists nat demo_serve demo_rtt demo_format demo_TaskStatus_of
         5000 50 200 demo_client "movies" demo_world) = Ok false.
Proof.
  destruct (delete_index_if_exists_true_iff_succeeded
              nat demo_serve demo_rtt demo_format demo_TaskStatus_of 5000%Z 50%Z
              200 demo_client "movies" demo_world
              (mkWorld nat 1 10 _) (mkResponse 202 _) (JNum 0)
              (mkWorld nat 3 80 _) (mkTaskStatus (JNum 2) "failed")
              eq_refl eq_refl eq_refl)
    as (b & Hrun & Hb & _).
  rewrite Hrun. simpl. destruct b; [|reflexivity].
  destruct Hb as [Hb _]. specialize (Hb eq_refl). discriminate Hb.
Defined.

Lemma absent_indexes_are_None_witness :
  snd (get_indexes nat empty_serve demo_rtt (AsyncClient * string)
         (fun c uid _ _ _ => Ok (c, demo_format uid)) demo_client demo_world) = Ok None /\
  snd (get_raw_indexes nat empty_serve demo_rtt json (fun j => Ok j)
         demo_client demo_world) = Ok None.
Proof.
  apply (proj1 (absent_indexes_are_None nat empty_serve demo_rtt json
                  (AsyncClient * string) (fun j => Ok j)
                  (fun c uid _ _ _ => Ok (c, demo_format uid))
                  demo_client "movies" demo_world)
               (mkResponse 200 (JArr []))).
  - reflexivity.
  - reflexivity.
  - left. reflexivity.
Defined.

Lemma generate_tenant_token_witness :
  generate_tenant_token nat demo_serve demo_rtt demo_Key_init demo_jwt_encode
    demo_client [("searchRules", JArr [JStr "*"])] (Some admin_key) demo_world
  = (demo_world, Raise InvalidKeyError).
Proof.
  apply (proj1 (generate_tenant_token_validates nat demo_serve demo_rtt demo_Key_init
                  demo_jwt_encode demo_client [("searchRules", JArr [JStr "*"])]
                  (Some admin_key) demo_world)
               admin_key).
  - reflexivity.
  - discriminate.
Defined.

(** * More runs against small servers *)

(** A server that knows nothing and says so. *)
Definition refusing_serve (n : nat) (r : Request) : nat * Response :=
  (S n, mkResponse 404 (JObj [("message", JStr "Index movies not found.");
                              ("code", JStr "index_not_found")])).

(** A server whose updates are processed at once. *)
Definition processed_serve (n : nat) (r : Request) : nat * Response :=
  (S n, mkResponse 200 (JObj [("uid", JNum 0); ("status", JStr "processed")])).

(** A server with one index. *)
Definition listing_serve (n : nat) (r : Request) : nat * Response :=
  (S n, mkResponse 200
          (JArr [JObj [("uid", JStr "movies"); ("primaryKey", JStr "id");
                       ("createdAt", JStr "2022-02-01T10:00:00Z");
                       ("updatedAt", JStr "2022-02-01T10:00:00Z")]])).

(** A server whose second index comes without "updatedAt". *)
Definition books_item : list (string * json) :=
  [("uid", JStr "books"); ("primaryKey", JNull);
   ("createdAt", JStr "2022-02-01T10:00:00Z")].

Definition movies_item : list (string * json) :=
  [("uid", JStr "movies"); ("primaryKey", JStr "id");
   ("createdAt", JStr "2022-02-01T10:00:00Z");
   ("updatedAt", JStr "2022-02-01T10:00:00Z")].

Definition short_listing_serve (n : nat) (r : Request) : nat * Response :=
  (S n, mkResponse 200 (JArr [JObj movies_item; JObj books_item])).

(** A server with the two default keys. *)
Definition keys_serve (n : nat) (r : Request) : nat * Response :=
  (S n, mkResponse 200
          (JObj [("results",
                  JArr [JObj [("description", JStr "Default Admin API Key (Use it for all other operations)");
                              ("key", JStr "adm1n")];
                        JObj [("description", JStr "Default Search API Key (Use it to search from the frontend)");
                              ("key", JStr "s3arch")]])])).

Definition search_key : Key :=
  mkKey "Default Search API Key (Use it to search from the frontend)" "s3arch"
        ["search"] ["*"].

Definition movies_key : Key := mkKey "Movies only" "m0vies" ["search"] ["movies"; "books"].

Definition demo_Index_init (c : AsyncClient) (uid primary_key created_at updated_at : json)
  : outcome (AsyncClient * string) :=
  Ok (c, demo_format uid).

(** The calls of the client against a server [serve], the models being the
    JSON they are built from. *)
Definition demo_after (serve : nat -> Request -> nat * Response) :=
  after nat serve demo_rtt demo_format demo_TaskStatus_of
        json (AsyncClient * string) (fun j => Ok j) demo_Index_init
        demo_Key_init demo_jwt_encode 200%Z 50%Z
        json json json json json (string * json)%type
        (fun j => Ok j) (fun j => Ok j) (fun j => Ok j) (fun j => Ok j)
        (fun j => j) snd fst.

Definition demo_raised (serve : nat -> Request -> nat * Response) :=
  raised nat serve demo_rtt demo_format demo_TaskStatus_of
         json (AsyncClient * string) (fun j => Ok j) demo_Index_init
         demo_Key_init demo_jwt_encode 200%Z 50%Z
         json json json json json (string * json)%type
         (fun j => Ok j) (fun j => Ok j) (fun j => Ok j) (fun j => Ok j)
         (fun j => j) snd fst.

Example generate_test_movies_three :
  generate_test_movies 3 10 = [test_movie 0 10; test_movie 1 10; test_movie 2 10].
Proof. reflexivity. Qed.

Example generate_test_movies_none : generate_test_movies (-4) 0 = [].
Proof. reflexivity. Qed.

Example get_indexes_short_of_a_key :
  snd (get_indexes nat short_listing_serve demo_rtt (AsyncClient * string) demo_Index_init
         demo_client demo_world)
  = Raise (KeyError "updatedAt").
Proof. reflexivity. Qed.

Example delete_refused :
  snd (delete_index_if_exists nat refusing_serve demo_rtt demo_format demo_TaskStatus_of
         5000 50 200 demo_client "movies" demo_world)
  = Raise (MeiliSearchApiError 404).
Proof. reflexivity. Qed.

Example delete_without_uid :
  snd (delete_index_if_exists nat listing_serve demo_rtt demo_format demo_TaskStatus_of
         5000 50 200 demo_client "movies" demo_world)
  = Raise TypeError.
Proof. reflexivity. Qed.

Example delete_times_out :
  snd (delete_index_if_exists nat demo_serve demo_rtt demo_format demo_TaskStatus_of
         60 50 200 demo_client "movies" demo_world)
  = Raise MeiliSearchTimeoutError.
Proof. vm_compute. reflexivity. Qed.

Example wait_for_pending_update_processed :
  snd (wait_for_pending_update nat processed_serve demo_rtt demo_TaskStatus_of
         (AsyncClient * string) fst demo_update_url
         200 demo_index (JNum 0) 5000 50 demo_world)
  = Ok (mkTaskStatus (JNum 0) "processed").
Proof. vm_compute. reflexivity. Qed.

Example get_version_refused :
  demo_raised refusing_serve demo_client (call_get_version json (string * json)) demo_world
  = Some (MeiliSearchApiError 404).
Proof. reflexivity. Qed.

Example token_with_wildcard_key_refused :
  snd (generate_tenant_token nat demo_serve demo_rtt demo_Key_init demo_jwt_encode
         demo_client [("indexes", JArr [JStr "movies"])] (Some search_key) demo_world)
  = Raise InvalidRestriction.
Proof. reflexivity. Qed.

(** ** A wait that ends without a status and without a timeout *)



(** ** The further theorems at work *)

Lemma generate_test_movies_in_two_runs_witness :
  generate_test_movies 5 0 = (generate_test_movies 2 0 ++ generate_test_movies 3 2)%list.
Proof.
  apply (generate_test_movies_in_two_runs 2 3 0); lia.
Defined.

Lemma directory_movies_are_consecutive_witness :
  List.concat (directory_movies 2 50) = generate_test_movies 100 0.
Proof.
  apply (directory_movies_are_consecutive 2 50). lia.
Defined.

Lemma one_request_per_call_witness :
  exists t response,
    trace nat (demo_after demo_serve demo_client
                 (call_get_key json (string * json) "abc123") demo_world)
    = [Issued 0 (mkRequest GET "http://localhost:7700" "keys/abc123"
                           (Some [("Authorization", "Bearer masterKey")]) NoContent);
       Completed t (mkRequest GET "http://localhost:7700" "keys/abc123"
                              (Some [("Authorization", "Bearer masterKey")]) NoContent)
                 response].
Proof.
  exact (one_request_per_call nat demo_serve demo_rtt demo_format demo_TaskStatus_of
           json (AsyncClient * string) (fun j => Ok j) demo_Index_init
           demo_Key_init demo_jwt_encode 200%Z 50%Z
           json json json json json (string * json)%type
           (fun j => Ok j) (fun j => Ok j) (fun j => Ok j) (fun j => Ok j)
           (fun j => j) snd fst
           demo_client (call_get_key json (string * json) "abc123")
           GET "keys/abc123" NoContent demo_world eq_refl).
Defined.

Lemma refused_answers_raise_witness :
  demo_raised refusing_serve demo_client (call_create_dump json (string * json)) demo_world
  = Some (MeiliSearchApiError 404).
Proof.
  exact (refused_answers_raise nat refusing_serve demo_rtt demo_format demo_TaskStatus_of
           json (AsyncClient * string) (fun j => Ok j) demo_Index_init
           demo_Key_init demo_jwt_encode 200%Z 50%Z
           json json json json json (string * json)%type
           (fun j => Ok j) (fun j => Ok j) (fun j => Ok j) (fun j => Ok j)
           (fun j => j) snd fst
           demo_client (call_create_dump json (string * json))
           POST "dumps" NoContent demo_world eq_refl eq_refl).
Defined.

Lemma delete_key_returns_success_codes_witness : (200 <= 202 < 300)%Z.
Proof.
  apply (delete_key_returns_success_codes nat demo_serve demo_rtt demo_client
           "abc123" demo_world 202%Z).
  reflexivity.
Defined.

Lemma get_indexes_needs_every_field_witness :
  exists name,
    In name ["uid"; "primaryKey"; "createdAt"; "updatedAt"] /\
    dict_get name books_item = None /\
    get_indexes nat short_listing_serve demo_rtt (AsyncClient * string) demo_Index_init
                demo_client demo_world
    = (fst (send nat short_listing_serve demo_rtt (http_client demo_client)
                 GET "indexes" NoContent demo_world),
       Raise (KeyError name)).
Proof.
  apply (proj1 (proj2 (get_indexes_needs_every_field nat short_listing_serve demo_rtt
                         (AsyncClient * string) demo_Index_init demo_client demo_world))
               [JObj movies_item] (JObj books_item) []).
  - reflexivity.
  - reflexivity.
  - constructor; [reflexivity | constructor].
  - do 3 apply Exists_cons_tl. apply Exists_cons_hd. reflexivity.
Defined.

Lemma get_keys_reads_results_witness :
  snd (get_keys nat demo_serve demo_rtt demo_Key_init demo_client demo_world)
  = Raise (KeyError "results").
Proof.
  apply (proj2 (get_keys_reads_results nat demo_serve demo_rtt demo_Key_init
                  demo_client demo_world)
               [("uid", JNum 0); ("status", JStr "processing")]);
    reflexivity.
Defined.

Lemma generate_tenant_token_signs_valid_payloads_witness :
  generate_tenant_token nat demo_serve demo_rtt demo_Key_init demo_jwt_encode
    demo_client [("indexes", JArr [JStr "books"]); ("searchRules", JArr [JStr "*"])]
    (Some movies_key) demo_world
  = (demo_world, Ok "jwt.m0vies").
Proof.
  apply (generate_tenant_token_signs_valid_payloads nat demo_serve demo_rtt
           demo_Key_init demo_jwt_encode demo_client
           [("indexes", JArr [JStr "books"]); ("searchRules", JArr [JStr "*"])]
           movies_key demo_world).
  - reflexivity.
  - right. exists ["books"]. split; [reflexivity|].
    intros x [<- | []]. simpl. auto.
Defined.

Lemma generate_tenant_token_uses_first_default_key_witness :
  snd (generate_tenant_token nat keys_serve demo_rtt demo_Key_init demo_jwt_encode
         demo_client [("searchRules", JArr [JStr "*"])] None demo_world)
  = Ok "jwt.s3arch".
Proof.
  rewrite (generate_tenant_token_uses_first_default_key nat keys_serve demo_rtt
             demo_Key_init demo_jwt_encode demo_client
             [("searchRules", JArr [JStr "*"])] demo_world _
             [mkKey "Default Admin API Key (Use it for all other operations)" "adm1n"
                    ["search"] ["*"]]
             search_key [] "" " (Use it to search from the frontend)" eq_refl).
  - reflexivity.
  - constructor; [|constructor]. intros a b H.
    assert (Hc : contains "Default Search API Key"
                          "Default Admin API Key (Use it for all other operations)" = true)
      by (apply contains_spec; exists a, b; exact H).
    vm_compute in Hc. discriminate Hc.
  - reflexivity.
  - reflexivity.
Defined.

Lemma generate_tenant_token_wildcard_key_refuses_names_witness :
  generate_tenant_token nat demo_serve demo_rtt demo_Key_init demo_jwt_encode
    demo_client [("indexes", JArr [JStr "movies"])] (Some search_key) demo_world
  = (demo_world, Raise InvalidRestriction).
Proof.
  apply (generate_tenant_token_wildcard_key_refuses_names nat demo_serve demo_rtt
           demo_Key_init demo_jwt_encode demo_client
           [("indexes", JArr [JStr "movies"])] search_key [JStr "movies"] "movies"
           demo_world).
  - reflexivity.
  - reflexivity.
  - reflexivity.
  - left. reflexivity.
  - discriminate.
Defined.

Lemma delete_index_if_exists_requests_witness :
  snd (delete_index_if_exists nat demo_serve demo_rtt demo_format demo_TaskStatus_of
         200 50 201 demo_client "movies" demo_world) <> OutOfFuel.
Proof.
  destruct (delete_index_if_exists_requests nat demo_serve demo_rtt demo_format
              demo_TaskStatus_of 200%Z 50%Z 201 demo_client "movies" demo_world)
    as (n & path & _ & Hends & _).
  - lia.
  - intros s r. unfold demo_rtt. lia.
  - simpl. lia.
  - exact Hends.
Defined.

Lemma delete_index_if_exists_false_means_failed_witness :
  exists w1 response task_id st,
    _send_request nat demo_serve demo_rtt (http_client demo_client)
                  DELETE ("indexes/" ++ "movies") NoContent demo_world
      = (w1, Ok response) /\
    subscript (response_json response) "uid" = Ok task_id /\
    wait_for_task nat demo_serve demo_rtt demo_format demo_TaskStatus_of
                  201 (http_client demo_client) task_id 200 50 w1
      = (fst (delete_index_if_exists nat demo_serve demo_rtt demo_format
                demo_TaskStatus_of 200 50 201 demo_client "movies" demo_world),
         Ok st) /\
    status st = "failed".
Proof.
  apply (proj1 (delete_index_if_exists_false_means_failed nat demo_serve demo_rtt
                  demo_format demo_TaskStatus_of 200%Z 50%Z 201 demo_client "movies"
                  demo_world)).
  vm_compute. reflexivity.
Defined.
